(** * The resource-aggregation pipeline of server/routes.ts

    A shallow embedding of the query synthesizer, the per-source query
    optimizer, the source fetcher with its fallback synthesizer, the day
    aggregator with the plan orchestrator, and the immediate-resources path;
    then the code around them: the in-memory store of server/storage.ts,
    the curriculum fallback of server/services/openai.ts, the read-back of
    stored resources and the client's search history and phase lookup;
    followed by the properties proved about them.

    Conventions.
    - A JavaScript string is the list of its UTF-16 code units.
    - A value that came out of [JSON.parse] is a tree of type [JsVal].
    - A synchronous exception is the [Throw] case of [Completion]; an
      exception that escapes an event-loop callback (so that the promise the
      caller awaits is never settled) is the [Uncaught] / [Halted] case.
    - Console logging is not modelled. *)

From Stdlib Require Import ZArith NArith String Ascii DecimalString Lia Sorted.
From stdpp Require Import base option list gmap.

Set Warnings "-register-all,-clear-no-such-hyp".
Local Open Scope Z_scope.

(* ===================================================================== *)
(** ** Strings                                                           *)
(* ===================================================================== *)

Module JsString.

(** UTF-16 code units, in order. *)
Definition jsstring : Type := list N.

(** A source-code literal (all literals of routes.ts are ASCII). *)
Definition str (s : string) : jsstring :=
  List.map N_of_ascii (list_ascii_of_string s).

(** ECMAScript WhiteSpace and LineTerminator code points: what
    [String.prototype.trim] strips. All of them are in the BMP. *)
Definition isWhiteSpace (c : N) : bool :=
  (  (c =? 9) || (c =? 10) || (c =? 11) || (c =? 12) || (c =? 13)
  || (c =? 32) || (c =? 160) || (c =? 5760)
  || ((8192 <=? c) && (c <=? 8202))
  || (c =? 8232) || (c =? 8233) || (c =? 8239) || (c =? 8287)
  || (c =? 12288) || (c =? 65279))%N.

Fixpoint trimStart (s : jsstring) : jsstring :=
  match s with
  | [] => []
  | c :: rest => if isWhiteSpace c then trimStart rest else s
  end.

Definition trimEnd (s : jsstring) : jsstring := rev (trimStart (rev s)).

(** [s.trim()] *)
Definition trim (s : jsstring) : jsstring := trimEnd (trimStart s).

(** [s] is empty or consists of white space only. *)
Definition blank (s : jsstring) : Prop := Forall (fun c => isWhiteSpace c = true) s.

(** Number-to-string conversion of an integer, as a template literal does
    for a loop counter ([`${day}`]). *)
Definition numberToString (z : Z) : jsstring :=
  str (NilZero.string_of_int (Z.to_int z)).

(** *** encodeURIComponent *)

Definition inRange (lo hi c : N) : bool := ((lo <=? c) && (c <=? hi))%N.

(** uriUnreserved: letters, digits and [- _ . ! ~ * ' ( )]. *)
Definition isUnreserved (c : N) : bool :=
  inRange 65 90 c || inRange 97 122 c || inRange 48 57 c
  || (c =? 45)%N || (c =? 95)%N || (c =? 46)%N || (c =? 33)%N
  || (c =? 126)%N || (c =? 42)%N || (c =? 39)%N || (c =? 40)%N || (c =? 41)%N.

Definition isLeadingSurrogate (c : N) : bool := inRange 55296 56319 c.
Definition isTrailingSurrogate (c : N) : bool := inRange 56320 57343 c.

Definition hexDigit (d : N) : N := (if d <? 10 then 48 + d else 55 + d)%N.

(** ["%XX"] with upper-case digits. *)
Definition percent (octet : N) : jsstring :=
  [37%N; hexDigit (octet / 16); hexDigit (octet mod 16)].

Definition utf8 (cp : N) : list N :=
  (if cp <? 128 then [cp]
   else if cp <? 2048 then [192 + cp / 64; 128 + cp mod 64]
   else if cp <? 65536 then
     [224 + cp / 4096; 128 + (cp / 64) mod 64; 128 + cp mod 64]
   else
     [240 + cp / 262144; 128 + (cp / 4096) mod 64;
      128 + (cp / 64) mod 64; 128 + cp mod 64])%N.

Definition escape (cp : N) : jsstring := List.concat (List.map percent (utf8 cp)).

Definition surrogatePair (hi lo : N) : N :=
  ((hi - 55296) * 1024 + (lo - 56320) + 65536)%N.

(** The abstract operation Encode of ECMAScript with the unreserved set of
    [encodeURIComponent]; [None] is the URIError raised at an unpaired
    surrogate. *)
Fixpoint encodeURIComponent (s : jsstring) : option jsstring :=
  match s with
  | [] => Some []
  | c :: rest =>
      if isUnreserved c then cons c <$> encodeURIComponent rest
      else if isTrailingSurrogate c then None
      else if isLeadingSurrogate c then
        match rest with
        | d :: rest' =>
            if isTrailingSurrogate d
            then app (escape (surrogatePair c d)) <$> encodeURIComponent rest'
            else None
        | [] => None
        end
      else app (escape c) <$> encodeURIComponent rest
  end.

(** No unpaired surrogate: every leading surrogate is followed by a
    trailing one, and every trailing one follows a leading one. *)
Fixpoint wellFormed (s : jsstring) : bool :=
  match s with
  | [] => true
  | c :: rest =>
      if isTrailingSurrogate c then false
      else if isLeadingSurrogate c then
        match rest with
        | d :: rest' => isTrailingSurrogate d && wellFormed rest'
        | [] => false
        end
      else wellFormed rest
  end.

End JsString.
Export JsString.

(* ===================================================================== *)
(** ** Arrays and [Set]                                                  *)
(* ===================================================================== *)

Module JsArray.

(** [arr.slice(0, n)] for a non-negative literal [n]. *)
Definition slice0 {A} (n : nat) (arr : list A) : list A := take n arr.

(** [arr.push(x)] *)
Definition push {A} (arr : list A) (x : A) : list A := arr ++ [x].

(** A [Set] of strings, as the list of its elements in insertion order. *)
Definition Set_has (s : list jsstring) (x : jsstring) : bool :=
  bool_decide (x ∈ s).

Definition Set_add (s : list jsstring) (x : jsstring) : list jsstring :=
  if Set_has s x then s else s ++ [x].

(** [new Set(iterable)] adds the elements one by one. *)
Definition new_Set (xs : list jsstring) : list jsstring :=
  fold_left Set_add xs [].

(** [[...new Set(arr)]] *)
Definition spreadSet (xs : list jsstring) : list jsstring := new_Set xs.

End JsArray.
Export JsArray.

(* ===================================================================== *)
(** ** The plan (shared/schema.ts)                                       *)
(* ===================================================================== *)

(** [DayPlan]. The synthesizer reads [phase] and [microTopics] through
    [|| default], so both may be absent ([None]). *)
Record DayPlan : Type := {
  day : Z;
  title : jsstring;
  phase : option jsstring;
  microTopics : option (list jsstring)
}.

(** [LearningPlanStructure], as far as the pipeline reads it. *)
Record LearningPlanStructure : Type := {
  topic : jsstring;
  days : option (list DayPlan)
}.

(* ===================================================================== *)
(** ** Query Synthesizer and Source Query Optimizer                      *)
(* ===================================================================== *)

Module Queries.

(** [day.phase || 'beginner']: absent and empty are both falsy. *)
Definition phaseOf (d : DayPlan) : jsstring :=
  match phase d with
  | Some (c :: p) => c :: p
  | _ => str "beginner"
  end.

(** [day.microTopics || []] *)
Definition microTopicsOf (d : DayPlan) : list jsstring :=
  default [] (microTopics d).

(** The three pushes under "Primary queries". *)
Definition primaryQueries (baseTopic dayTitle : jsstring) : list jsstring :=
  [ baseTopic ++ str " " ++ dayTitle;
    baseTopic ++ str " " ++ dayTitle ++ str " tutorial";
    baseTopic ++ str " " ++ dayTitle ++ str " guide" ].

(** The [if / else if / else if] chain under "Phase-specific queries". *)
Definition phaseQueries (baseTopic dayTitle phase : jsstring) : list jsstring :=
  if bool_decide (phase = str "beginner") then
    [ baseTopic ++ str " " ++ dayTitle ++ str " fundamentals";
      baseTopic ++ str " " ++ dayTitle ++ str " basics";
      str "learn " ++ baseTopic ++ str " " ++ dayTitle ]
  else if bool_decide (phase = str "intermediate") then
    [ baseTopic ++ str " " ++ dayTitle ++ str " practical";
      baseTopic ++ str " " ++ dayTitle ++ str " implementation";
      baseTopic ++ str " " ++ dayTitle ++ str " examples" ]
  else if bool_decide (phase = str "advanced") then
    [ baseTopic ++ str " " ++ dayTitle ++ str " advanced";
      baseTopic ++ str " " ++ dayTitle ++ str " optimization";
      baseTopic ++ str " " ++ dayTitle ++ str " best practices" ]
  else [].

(** The body of [microTopics.forEach]: four pushes. *)
Definition microTopicQueries (baseTopic phase microTopic : jsstring) : list jsstring :=
  [ baseTopic ++ str " " ++ microTopic;
    microTopic ++ str " explained";
    microTopic ++ str " tutorial";
    baseTopic ++ str " " ++ microTopic ++ str " " ++ phase ].

(** The three pushes under "Technical documentation queries". *)
Definition documentationQueries (baseTopic : jsstring) : list jsstring :=
  [ baseTopic ++ str " documentation";
    baseTopic ++ str " reference";
    baseTopic ++ str " technical guide" ].

(** The array [queries] just before the [return]: every push, in order. *)
Definition emittedQueries (planStructure : LearningPlanStructure) (d : DayPlan)
  : list jsstring :=
  let baseTopic := topic planStructure in
  let dayTitle := title d in
  let microTopics := microTopicsOf d in
  let phase := phaseOf d in
  let queries := [] in
  let queries := fold_left push (primaryQueries baseTopic dayTitle) queries in
  let queries := fold_left push (phaseQueries baseTopic dayTitle phase) queries in
  let queries :=
    fold_left (fun qs microTopic =>
                 fold_left push (microTopicQueries baseTopic phase microTopic) qs)
              microTopics queries in
  fold_left push (documentationQueries baseTopic) queries.

Definition generateComprehensiveSearchQueries
    (planStructure : LearningPlanStructure) (d : DayPlan) : list jsstring :=
  slice0 12 (spreadSet (emittedQueries planStructure d)).

(** The [switch (source)] of [optimizeQueriesForSource]; no [default:]. *)
Definition sourceQueries (source topic : jsstring) : list jsstring :=
  if bool_decide (source = str "youtube") then
    [ topic ++ str " tutorial step by step";
      str "how to learn " ++ topic;
      topic ++ str " course";
      topic ++ str " explained" ]
  else if bool_decide (source = str "medium") then
    [ topic ++ str " deep dive";
      topic ++ str " comprehensive guide";
      str "mastering " ++ topic;
      topic ++ str " best practices" ]
  else if bool_decide (source = str "reddit") then
    [ str "learning " ++ topic;
      topic ++ str " discussion";
      topic ++ str " help";
      topic ++ str " resources" ]
  else if bool_decide (source = str "wikipedia") then
    [ topic ++ str " overview";
      topic ++ str " introduction";
      topic ++ str " theory";
      topic ++ str " principles" ]
  else [].

Definition optimizeQueriesForSource
    (source : jsstring) (baseQueries : list jsstring) (topic : jsstring)
  : list jsstring :=
  let optimized := baseQueries in
  let optimized := fold_left push (sourceQueries source topic) optimized in
  slice0 8 (spreadSet optimized).

End Queries.
Export Queries.

(* ===================================================================== *)
(** ** Values, exceptions and property access                            *)
(* ===================================================================== *)

Module JsValue.

Inductive JsError : Type := TypeError | URIError | SyntaxError.

(** The completion of a synchronous evaluation. *)
Inductive Completion (A : Type) : Type :=
| Normal (a : A)
| Throw (e : JsError).
Arguments Normal {A} a.
Arguments Throw {A} e.

Definition bindC {A B} (c : Completion A) (k : A -> Completion B) : Completion B :=
  match c with
  | Normal a => k a
  | Throw e => Throw e
  end.

Declare Scope completion_scope.
Delimit Scope completion_scope with C.
Notation "x <- c ; k" := (bindC c (fun x => k))
  (at level 20, c at level 100, k at level 200, only parsing) : completion_scope.

(** A value as [JSON.parse] builds it (plus [undefined], the result of
    reading an absent property). Numbers matter to the pipeline only through
    their truthiness; they are kept as integers. *)
Inductive JsVal : Type :=
| JUndefined
| JNull
| JBool (b : bool)
| JNum (n : Z)
| JStr (s : jsstring)
| JArr (elems : list JsVal)
| JObj (props : list (jsstring * JsVal)).

(** ToBoolean *)
Definition truthy (v : JsVal) : bool :=
  match v with
  | JUndefined | JNull => false
  | JBool b => b
  | JNum n => negb (n =? 0)
  | JStr s => negb (bool_decide (s = []))
  | JArr _ | JObj _ => true
  end.

Definition isNullish (v : JsVal) : bool :=
  match v with
  | JUndefined | JNull => true
  | _ => false
  end.

(** The own property [k] of an object literal; [undefined] when absent. *)
Fixpoint lookupProp (k : jsstring) (props : list (jsstring * JsVal)) : JsVal :=
  match props with
  | [] => JUndefined
  | (k', v) :: rest => if bool_decide (k = k') then v else lookupProp k rest
  end.

(** [v.k] for the property names this program reads from fetched data
    ([title], [url], [metadata], [fallback]): none of them is defined on a
    primitive wrapper or on [Array.prototype], so only objects can answer
    with something else than [undefined]; reading from [undefined] or
    [null] is a TypeError. *)
Definition getProp (v : JsVal) (k : jsstring) : Completion JsVal :=
  match v with
  | JUndefined | JNull => Throw TypeError
  | JObj props => Normal (lookupProp k props)
  | _ => Normal JUndefined
  end.

(** [a === b]. Primitives compare by value. Arrays and objects compare by
    reference, which a tree does not carry; two distinct parsed values are
    never the same reference, so the answer is [false] there. The pipeline
    applies [===] to titles against string literals and to urls that
    already passed [.trim()], that is, to strings. *)
Definition strictEquals (a b : JsVal) : bool :=
  match a, b with
  | JUndefined, JUndefined => true
  | JNull, JNull => true
  | JBool x, JBool y => bool_decide (x = y)
  | JNum x, JNum y => x =? y
  | JStr x, JStr y => bool_decide (x = y)
  | _, _ => false
  end.

(** [u.trim()] on a value: only a string has the method. *)
Definition callTrim (u : JsVal) : Completion jsstring :=
  match u with
  | JStr s => Normal (trim s)
  | _ => Throw TypeError
  end.

(** [arr.filter(p)] where the callback may throw: the first exception
    aborts the whole call. *)
Fixpoint filterC {A} (p : A -> Completion bool) (arr : list A) : Completion (list A) :=
  match arr with
  | [] => Normal []
  | x :: rest =>
      (keep <- p x ;
       rest' <- filterC p rest ;
       Normal (if (keep : bool) then x :: rest' else rest'))%C
  end.

(** [arr.filter((x, index) => p x index)] *)
Fixpoint filterIndexC {A} (p : A -> Z -> Completion bool) (index : Z) (arr : list A)
  : Completion (list A) :=
  match arr with
  | [] => Normal []
  | x :: rest =>
      (keep <- p x index ;
       rest' <- filterIndexC p (index + 1) rest ;
       Normal (if (keep : bool) then x :: rest' else rest'))%C
  end.

(** [arr.findIndex(p)]: the index of the first hit, [-1] without one; the
    callback is not called past the first hit. *)
Fixpoint findIndexC {A} (p : A -> Completion bool) (index : Z) (arr : list A)
  : Completion Z :=
  match arr with
  | [] => Normal (-1)
  | x :: rest =>
      (hit <- p x ;
       if (hit : bool) then Normal index else findIndexC p (index + 1) rest)%C
  end.

End JsValue.
Export JsValue.

(* ===================================================================== *)
(** ** Fallback Synthesizer                                              *)
(* ===================================================================== *)

Module Fallback.

Record Content : Type := {
  c_title : jsstring;
  c_url : jsstring;
  c_snippet : jsstring
}.

(** [encodeURIComponent(q)] inside an expression. *)
Definition encode (q : jsstring) : Completion jsstring :=
  match encodeURIComponent q with
  | Some e => Normal e
  | None => Throw URIError
  end.

(** The object literal [fallbackContent]: all four entries are evaluated,
    in source order, whatever [source] is. *)
Definition fallbackContent (query : jsstring) : Completion (list (jsstring * Content)) :=
  (w <- encode query ;
   y <- encode (query ++ str " tutorial") ;
   r <- encode query ;
   m <- encode query ;
   Normal
     [ (str "wikipedia",
        {| c_title := query ++ str " - Wikipedia Overview";
           c_url := str "https://en.wikipedia.org/wiki/Special:Search/" ++ w;
           c_snippet := str "Search Wikipedia for comprehensive information about "
                        ++ query
                        ++ str ". Click to explore detailed articles and references." |});
       (str "youtube",
        {| c_title := query ++ str " - Educational Videos";
           c_url := str "https://www.youtube.com/results?search_query=" ++ y;
           c_snippet := str "Find video tutorials and educational content about "
                        ++ query
                        ++ str ". Learn through visual explanations and practical demonstrations." |});
       (str "reddit",
        {| c_title := query ++ str " - Community Discussions";
           c_url := str "https://www.reddit.com/search/?q=" ++ r;
           c_snippet := str "Join community discussions about "
                        ++ query
                        ++ str ". Get insights, ask questions, and learn from experienced practitioners." |});
       (str "medium",
        {| c_title := query ++ str " - Technical Articles";
           c_url := str "https://medium.com/search?q=" ++ m;
           c_snippet := str "Read in-depth technical articles about "
                        ++ query
                        ++ str ". Explore expert insights and practical implementation guides." |}) ])%C.

(** The entry of the literal [fallbackContent] under the key [source], if
    it has one. *)
Fixpoint contentFor (source : jsstring) (table : list (jsstring * Content)) : option Content :=
  match table with
  | [] => None
  | (k, c) :: rest => if bool_decide (source = k) then Some c else contentFor source rest
  end.

(** The [metadata] object of a synthesized item. *)
Definition fallbackMetadata (source : jsstring) : JsVal :=
  JObj [ (str "source", JStr source);
         (str "type", JStr (str "fallback_search"));
         (str "note", JStr (str "Direct search link - click to find relevant content")) ].

(** The object literal of the [return] statement. *)
Definition fallbackItem (source : jsstring) (content : Content) : JsVal :=
  JObj [ (str "title", JStr (c_title content));
         (str "url", JStr (c_url content));
         (str "snippet", JStr (c_snippet content));
         (str "source", JStr source);
         (str "metadata", fallbackMetadata source) ].

(** The names an object literal inherits from [Object.prototype]. *)
Definition objectPrototypeNames : list jsstring :=
  [ str "constructor"; str "__defineGetter__"; str "__defineSetter__";
    str "hasOwnProperty"; str "__lookupGetter__"; str "__lookupSetter__";
    str "isPrototypeOf"; str "propertyIsEnumerable"; str "toString";
    str "valueOf"; str "__proto__"; str "toLocaleString" ].

(** The same literal when [fallbackContent[source]] is an inherited
    member: a function, or [Object.prototype] itself, whose [title], [url]
    and [snippet] are [undefined]. *)
Definition inheritedItem (source : jsstring) : JsVal :=
  JObj [ (str "title", JUndefined);
         (str "url", JUndefined);
         (str "snippet", JUndefined);
         (str "source", JStr source);
         (str "metadata", fallbackMetadata source) ].

Definition generateFallbackResults (source query : jsstring) : Completion (list JsVal) :=
  (table <- fallbackContent query ;
   match contentFor source table with
   | Some content => Normal [fallbackItem source content]
   | None =>
       if bool_decide (source ∈ objectPrototypeNames)
       then Normal [inheritedItem source]
       else Throw TypeError           (* content.title of undefined *)
   end)%C.

(** An item is a synthesized fallback when its metadata says
    [type: 'fallback_search']. *)
Definition isFallbackItem (r : JsVal) : bool :=
  match getProp r (str "metadata") with
  | Normal md =>
      match getProp md (str "type") with
      | Normal t => strictEquals t (JStr (str "fallback_search"))
      | Throw _ => false
      end
  | Throw _ => false
  end.

End Fallback.
Export Fallback.

(** The four knowledge sources, in the order of the literal array. *)
Definition sources : list jsstring :=
  [str "wikipedia"; str "youtube"; str "reddit"; str "medium"].

Definition SORRY : jsstring := str "Sorry peeps nothing to see here".
Definition MODULE_IMPORT_ERROR : jsstring := str "Module Import Error".

(* ===================================================================== *)
(** ** Effects: lookups issued and records stored                        *)
(* ===================================================================== *)

(** A row of [MemStorage.resources] (the random [id] is left out). *)
Record Resource : Type := {
  r_planId : jsstring;
  r_day : Z;
  r_source : jsstring;
  r_data : list JsVal
}.

(** What the surrounding process accumulates: the lookups spawned so far,
    oldest first, and the rows of the store in insertion order. *)
Record State : Type := {
  calls : list (jsstring * jsstring);
  resources : list Resource
}.

(** An [async] function either carries on with a value, or stops for good
    at an [await] whose promise never settles. *)
Inductive Run (A : Type) : Type :=
| Done (a : A)
| Halted (e : JsError).
Arguments Done {A} a.
Arguments Halted {A} e.

Definition M (A : Type) : Type := State -> Run A * State.

Definition ret {A} (a : A) : M A := fun st => (Done a, st).

Definition bindM {A B} (m : M A) (k : A -> M B) : M B :=
  fun st =>
    match m st with
    | (Done a, st') => k a st'
    | (Halted e, st') => (Halted e, st')
    end.

Declare Scope run_scope.
Delimit Scope run_scope with M.
Notation "x <- c ; k" := (bindM c (fun x => k))
  (at level 20, c at level 100, k at level 200, only parsing) : run_scope.

(** [for (const x of xs) { acc = body(acc, x) }] *)
Fixpoint forEachM {A B} (body : B -> A -> M B) (xs : list A) (acc : B) : M B :=
  match xs with
  | [] => ret acc
  | x :: rest => (acc' <- body acc x ; forEachM body rest acc')%M
  end.

(* ===================================================================== *)
(** ** Source Fetcher                                                    *)
(* ===================================================================== *)

(** What the child process does, as the promise executor observes it:
    the first of the three callbacks that runs. (A later callback finds
    the promise settled; what is written to stderr is only logged.) *)
Inductive Outcome : Type :=
| Closed (code : option Z) (output : jsstring)
    (** ['close'] with the exit code ([None] for [null], a killed child)
        and everything written to stdout *)
| SpawnFailed   (** ['error']: the child could not be started *)
| TimedOut.     (** the 15 s timer fires first *)

(** How the promise of [fetchResourcesFromSource] ends. No code path calls
    [reject]. [Uncaught e]: a callback threw [e]; the promise stays pending
    and the exception reaches the event loop. *)
Inductive Settled : Type :=
| Resolved (items : list JsVal)
| Uncaught (e : JsError).

Section Pipeline.

(** [JSON.parse], with [Throw SyntaxError] for malformed text. *)
Variable JSON_parse : jsstring -> Completion JsVal.

(** [resolve(generateFallbackResults(source, query))] as a callback's last
    statement. *)
Definition resolveFallback (source query : jsstring) : Settled :=
  match generateFallbackResults source query with
  | Normal items => Resolved items
  | Throw e => Uncaught e
  end.

(** The callback of [result.filter] in the ['close'] handler. *)
Definition isValidResult (r : JsVal) : Completion bool :=
  if negb (truthy r) then Normal false else
  (t <- getProp r (str "title") ;
   Normal (truthy t
           && negb (strictEquals t (JStr MODULE_IMPORT_ERROR))
           && negb (strictEquals t (JStr SORRY))))%C.

(** [result.filter(...)]: only an array has the method. *)
Definition filterResults (result : JsVal) : Completion (list JsVal) :=
  match result with
  | JArr elems => filterC isValidResult elems
  | _ => Throw TypeError
  end.

(** The [try] block of the ['close'] handler. *)
Definition closeTry (source query output : jsstring) : Completion Settled :=
  (result <- JSON_parse output ;
   validResults <- filterResults result ;
   if (0 <? length validResults)%nat then Normal (Resolved validResults)
   else (fb <- generateFallbackResults source query ; Normal (Resolved fb)))%C.

Definition fetchResourcesFromSource (source query : jsstring) (o : Outcome) : Settled :=
  match o with
  | Closed code output =>
      if bool_decide (code = Some 0) && negb (bool_decide (trim output = []))
      then match closeTry source query output with
           | Normal s => s
           | Throw _ => resolveFallback source query      (* catch (error) *)
           end
      else resolveFallback source query
  | SpawnFailed => resolveFallback source query
  | TimedOut => resolveFallback source query
  end.


(* ===================================================================== *)
(** ** Awaiting a lookup, writing to the store                           *)
(* ===================================================================== *)

(** The outside world: what the [n]-th lookup of the run (counting from 0)
    does when spawned for [(source, query)]. *)
Variable lookup : nat -> jsstring -> jsstring -> Outcome.

(** [await fetchResourcesFromSource(source, query)] *)
Definition awaitFetch (source query : jsstring) : M (list JsVal) :=
  fun st =>
    let st' := {| calls := calls st ++ [(source, query)];
                  resources := resources st |} in
    match fetchResourcesFromSource source query
            (lookup (length (calls st)) source query) with
    | Resolved items => (Done items, st')
    | Uncaught e => (Halted e, st')
    end.

(** [await storage.addResource(resource)] *)
Definition addResource (resource : Resource) : M unit :=
  fun st =>
    (Done tt, {| calls := calls st; resources := resources st ++ [resource] |}).

(* ===================================================================== *)
(** ** Day Aggregator and Plan Resource Orchestrator                     *)
(* ===================================================================== *)

(** The callback of [resources.filter] ("Filter out fallback results
    early"). *)
Definition isRealResource (r : JsVal) : Completion bool :=
  (md <- getProp r (str "metadata") ;
   fb <- (if isNullish md then Normal JUndefined else getProp md (str "fallback")) ;
   if truthy fb then Normal false else
   t <- getProp r (str "title") ;
   if strictEquals t (JStr SORRY) then Normal false else
   u <- getProp r (str "url") ;
   if negb (truthy u) then Normal false else
   trimmed <- callTrim u ;
   Normal (negb (strictEquals (JStr trimmed) (JStr []))))%C.

(** The body of [for (const query of sourceQueries)], as a function of
    [allResources]. *)
Definition queryStep (source : jsstring) (allResources : list JsVal) (query : jsstring)
  : M (list JsVal) :=
  (fetched <- awaitFetch source query ;
   ret (if (0 <? length fetched)%nat
        then match filterC isRealResource fetched with
             | Normal validResources => allResources ++ validResources
             | Throw _ => allResources          (* catch (queryError) *)
             end
        else allResources))%M.

(** [(r) => r.url === resource.url] *)
Definition sameUrl (resource r : JsVal) : Completion bool :=
  (a <- getProp r (str "url") ;
   b <- getProp resource (str "url") ;
   Normal (strictEquals a b))%C.

(** ["Remove duplicates and limit results"] *)
Definition uniqueResources (allResources : list JsVal) : Completion (list JsVal) :=
  (firsts <- filterIndexC
               (fun resource index =>
                  i <- findIndexC (sameUrl resource) 0 allResources ;
                  Normal (index =? i))
               0 allResources ;
   Normal (slice0 5 firsts))%C.

(** The body of [for (const source of sources)]. *)
Definition sourceStep (planId : jsstring) (planStructure : LearningPlanStructure)
    (dayNumber : Z) (searchQueries : list jsstring) (_ : unit) (source : jsstring)
  : M unit :=
  (let sourceQueries :=
     optimizeQueriesForSource source searchQueries (topic planStructure) in
   allResources <- forEachM (queryStep source) sourceQueries [] ;
   match uniqueResources allResources with
   | Normal unique =>
       if (0 <? length unique)%nat
       then addResource {| r_planId := planId; r_day := dayNumber;
                           r_source := source; r_data := unique |}
       else ret tt
   | Throw _ => ret tt                          (* catch (error) *)
   end)%M.

(** The body of [for (const day of days)]. *)
Definition dayStep (planId : jsstring) (planStructure : LearningPlanStructure)
    (_ : unit) (d : DayPlan) : M unit :=
  let dayNumber := day d in
  let searchQueries := generateComprehensiveSearchQueries planStructure d in
  forEachM (sourceStep planId planStructure dayNumber searchQueries) sources tt.

Definition fetchResourcesForPlan (planId : jsstring)
    (planStructure : LearningPlanStructure) : M unit :=
  forEachM (dayStep planId planStructure) (default [] (days planStructure)) tt.

(* ===================================================================== *)
(** ** Immediate-Resources path                                          *)
(* ===================================================================== *)

(** [ResourceGroup] of shared/schema.ts: the inner object literal. *)
Record ResourceGroup : Type := {
  wikipedia : list JsVal;
  youtube : list JsVal;
  reddit : list JsVal;
  medium : list JsVal
}.

(** The values of the counter of
    [for (let day = 1; day <= Math.min(duration, 5); day++)]. *)
Definition immediateDays (duration : Z) : list Z :=
  List.map Z.of_nat (seq 1 (Z.to_nat (Z.min duration 5))).

Definition immediateQuery (topic : jsstring) (dayNumber : Z) : jsstring :=
  topic ++ str " day " ++ numberToString dayNumber ++ str " fundamentals".

(** The loop body: four lookups in the order of the literal's fields,
    then the assignment [groupedResources[day] = {...}]. *)
Definition immediateStep (topic : jsstring) (groupedResources : gmap Z ResourceGroup)
    (dayNumber : Z) : M (gmap Z ResourceGroup) :=
  (let searchQuery := immediateQuery topic dayNumber in
   w <- awaitFetch (str "wikipedia") searchQuery ;
   y <- awaitFetch (str "youtube") searchQuery ;
   r <- awaitFetch (str "reddit") searchQuery ;
   m <- awaitFetch (str "medium") searchQuery ;
   ret (<[dayNumber := {| wikipedia := w; youtube := y; reddit := r; medium := m |}]>
          groupedResources))%M.

Definition generateImmediateResources (topic : jsstring) (duration : Z)
  : M (gmap Z ResourceGroup) :=
  forEachM (immediateStep topic) (immediateDays duration) ∅.

End Pipeline.

(** An empty run: no lookup spawned, nothing stored. *)
Definition initial : State := {| calls := []; resources := [] |}.

(* ===================================================================== *)
(** ** Notions the properties are stated with                            *)
(* ===================================================================== *)

(** *** Queries *)

(** Deduplication by exact string equality that keeps, of each string, the
    first occurrence, in the order of these first occurrences. *)
Fixpoint dedupFirstSeen (xs : list jsstring) : list jsstring :=
  match xs with
  | [] => []
  | x :: rest => x :: filter (λ y, y ≠ x) (dedupFirstSeen rest)
  end.

(** The synthesizer that "skips malformed queries silently": a template
    is instantiated only with a non-empty day title and a non-empty
    micro-topic. *)
Definition emittedSkippingMalformed (planStructure : LearningPlanStructure)
    (d : DayPlan) : list jsstring :=
  (if bool_decide (title d = []) then []
   else primaryQueries (topic planStructure) (title d)
        ++ phaseQueries (topic planStructure) (title d) (phaseOf d))
  ++ concat (List.map (microTopicQueries (topic planStructure) (phaseOf d))
                      (filter (λ m, m ≠ []) (microTopicsOf d)))
  ++ documentationQueries (topic planStructure).

Definition synthesizerSkippingMalformed (planStructure : LearningPlanStructure)
    (d : DayPlan) : list jsstring :=
  take 12 (dedupFirstSeen (emittedSkippingMalformed planStructure d)).

(** A string without unpaired surrogate. *)
Definition wfString (q : jsstring) : Prop := wellFormed q = true.

(** The strings of a day are free of unpaired surrogates. *)
Definition wfDay (planStructure : LearningPlanStructure) (d : DayPlan) : Prop :=
  wfString (topic planStructure) ∧ wfString (title d) ∧ wfString (phaseOf d)
  ∧ Forall wfString (microTopicsOf d).

(** *** Fetched items *)

(** [r.title], [undefined] where reading it would throw. *)
Definition titleOf (r : JsVal) : JsVal :=
  match getProp r (str "title") with
  | Normal t => t
  | Throw _ => JUndefined
  end.

(** [r.url], likewise. *)
Definition urlOf (r : JsVal) : JsVal :=
  match getProp r (str "url") with
  | Normal u => u
  | Throw _ => JUndefined
  end.

(** [r.metadata?.fallback], likewise. *)
Definition fallbackFlag (r : JsVal) : JsVal :=
  match getProp r (str "metadata") with
  | Normal md =>
      if isNullish md then JUndefined
      else match getProp md (str "fallback") with
           | Normal f => f
           | Throw _ => JUndefined
           end
  | Throw _ => JUndefined
  end.

(** Title present and not one of the two sentinel strings: what the
    ['close'] handler checks. *)
Definition hasGoodTitle (r : JsVal) : bool :=
  truthy r && truthy (titleOf r)
  && negb (strictEquals (titleOf r) (JStr MODULE_IMPORT_ERROR))
  && negb (strictEquals (titleOf r) (JStr SORRY)).

(** Item-level validation in the words of the specification: the title
    check and, besides, a url that is present and non-empty. *)
Definition passesItemValidation (r : JsVal) : bool :=
  hasGoodTitle r && truthy (urlOf r).

(** The items the ['close'] handler resolves with, when it does not fall
    back: exit code 0, non-blank output that parses to an array with at
    least one element of good title. *)
Definition realResults (JSON_parse : jsstring -> Completion JsVal) (o : Outcome)
  : option (list JsVal) :=
  match o with
  | Closed (Some 0) output =>
      if bool_decide (trim output = []) then None
      else match JSON_parse output with
           | Normal (JArr elems) =>
               match List.filter hasGoodTitle elems with
               | [] => None
               | valid => Some valid
               end
           | _ => None
           end
  | _ => None
  end.

(** *** Stored records *)

(** What the Day Aggregator promises of an item it stores. *)
Definition storableItem (r : JsVal) : Prop :=
  truthy (fallbackFlag r) = false
  ∧ titleOf r ≠ JStr SORRY
  ∧ ∃ u, urlOf r = JStr u ∧ ¬ blank u.

(** ... and of a record it stores. *)
Definition storableRecord (record : Resource) : Prop :=
  (0 < length (r_data record) ≤ 5)%nat
  ∧ Forall storableItem (r_data record)
  ∧ NoDup (urlOf <$> r_data record).

(** [st'] holds the records of [st] and, after them, storable ones only. *)
Definition grows (st st' : State) : Prop :=
  ∃ added, resources st' = resources st ++ added ∧ Forall storableRecord added.

(** An object whose [url] is a string: what the deduplication compares. *)
Definition keyed (r : JsVal) : Prop := ∃ props u, r = JObj props ∧ urlOf r = JStr u.

(** The text of that url. *)
Definition urlKey (r : JsVal) : jsstring :=
  match urlOf r with
  | JStr u => u
  | _ => []
  end.

(** A synthesized fallback item that the aggregator's filter lets through. *)
Definition synthesized (r : JsVal) : Prop :=
  isFallbackItem r = true ∧ isRealResource r = Normal true.

(** A record for (day, source) made of synthesized fallback items only. *)
Definition fallbackRecord (dayNumber : Z) (source : jsstring) (record : Resource) : Prop :=
  r_day record = dayNumber ∧ r_source record = source
  ∧ r_data record ≠ []
  ∧ Forall (λ item, isFallbackItem item = true) (r_data record).

(** *** The immediate path *)

Section Expected.
Variable JSON_parse : jsstring -> Completion JsVal.
Variable lookup : nat -> jsstring -> jsstring -> Outcome.

(** The [i]-th lookup of the run, spawned for (source, query), resolves. *)
Definition resolves (i : nat) (source query : jsstring) : Prop :=
  ∃ items,
    fetchResourcesFromSource JSON_parse source query (lookup i source query)
    = Resolved items.

(** What it resolves with ([[]] if it does not). *)
Definition handedBack (i : nat) (source query : jsstring) : list JsVal :=
  match fetchResourcesFromSource JSON_parse source query (lookup i source query) with
  | Resolved items => items
  | Uncaught _ => []
  end.

(** The object stored under [groupedResources[n]] when the four lookups of
    day [n] are the lookups number [base], ..., [base + 3] of the run. *)
Definition groupAt (topic : jsstring) (base : nat) (n : Z) : ResourceGroup :=
  {| wikipedia := handedBack base (str "wikipedia") (immediateQuery topic n);
     youtube := handedBack (base + 1) (str "youtube") (immediateQuery topic n);
     reddit := handedBack (base + 2) (str "reddit") (immediateQuery topic n);
     medium := handedBack (base + 3) (str "medium") (immediateQuery topic n) |}.

Fixpoint immediateGroups (topic : jsstring) (base : nat) (ds : list Z)
    (acc : gmap Z ResourceGroup) : gmap Z ResourceGroup :=
  match ds with
  | [] => acc
  | n :: rest => immediateGroups topic (base + 4) rest (<[n := groupAt topic base n]> acc)
  end.

End Expected.

(** One lookup per source, in the order of the object literal. *)
Definition immediateCalls (topic : jsstring) (ds : list Z) : list (jsstring * jsstring) :=
  flat_map (λ n, [ (str "wikipedia", immediateQuery topic n);
                   (str "youtube", immediateQuery topic n);
                   (str "reddit", immediateQuery topic n);
                   (str "medium", immediateQuery topic n) ]) ds.

(* ===================================================================== *)
(** ** Example inputs                                                    *)
(* ===================================================================== *)

(** The plan of the end-to-end example. *)
Definition rustDay1 : DayPlan :=
  {| day := 1; title := str "Intro to ownership"; phase := Some (str "beginner");
     microTopics := Some [str "move semantics"; str "borrowing"] |}.

Definition rustPlan : LearningPlanStructure :=
  {| topic := str "rust ownership"; days := Some [rustDay1] |}.

(** A day with an empty title and an empty micro-topic. *)
Definition emptyDay : DayPlan :=
  {| day := 1; title := []; phase := Some (str "advanced");
     microTopics := Some [[]] |}.

Definition goPlan : LearningPlanStructure :=
  {| topic := str "go"; days := Some [emptyDay] |}.

(** A string that consists of one unpaired high surrogate. *)
Definition loneSurrogate : jsstring := [55296%N].

(** A parsed item with a title and no url. *)
Definition itemWithoutUrl : JsVal := JObj [(str "title", JStr (str "Ownership"))].

(** A real item as a lookup script prints it. *)
Definition realItem : JsVal :=
  JObj [ (str "title", JStr (str "Ownership - The Rust Book"));
         (str "url", JStr (str "https://doc.rust-lang.org/book/ch04-00.html"));
         (str "snippet", JStr (str "Understanding ownership")) ].

(** Three stand-ins for [JSON.parse]: one that rejects every text, and two
    that read every text as an array of one given item. *)
Definition parseNothing : jsstring -> Completion JsVal :=
  fun _ => Throw SyntaxError.

Definition parseOneItem : jsstring -> Completion JsVal :=
  fun _ => Normal (JArr [itemWithoutUrl]).

Definition parseRealItem : jsstring -> Completion JsVal :=
  fun _ => Normal (JArr [realItem]).

(** A world in which no lookup ever answers. *)
Definition allTimedOut : nat -> jsstring -> jsstring -> Outcome :=
  fun _ _ _ => TimedOut.

(** A world in which the first lookup prints one item and every later one
    times out. *)
Definition firstAnswers : nat -> jsstring -> jsstring -> Outcome :=
  fun i _ _ =>
    match i with
    | O => Closed (Some 0) (str "[item]")
    | S _ => TimedOut
    end.

(* ===================================================================== *)
(** * The code around the pipeline                                       *)
(* ===================================================================== *)

(** ** [Array.prototype.sort]                                            *)

Module JsSort.

(** [arr.sort(cmp)] for a comparator that is the difference of a numeric
    key, as all comparators of this program are ([a.day - b.day],
    [time(b) - time(a)]). The sort is stable and such a comparator is
    consistent, so the result is determined: the elements in the order of
    the comparator, equal ones in their original order. Written as an
    insertion sort: [x], which stood before everything in [sorted], goes
    behind exactly those elements [y] with [cmp x y > 0]. *)
Fixpoint insertSorted {A} (cmp : A -> A -> Z) (x : A) (sorted : list A) : list A :=
  match sorted with
  | [] => [x]
  | y :: rest => if 0 <? cmp x y then y :: insertSorted cmp x rest else x :: y :: rest
  end.

Fixpoint sortWith {A} (cmp : A -> A -> Z) (arr : list A) : list A :=
  match arr with
  | [] => []
  | x :: rest => insertSorted cmp x (sortWith cmp rest)
  end.

(** [arr.slice(-n)]: the last [n] elements. *)
Definition sliceLast {A} (n : nat) (arr : list A) : list A :=
  drop (length arr - n) arr.

End JsSort.
Export JsSort.

(** ** Curriculum fallback (server/services/openai.ts) and the client's
       phase lookup                                                      *)

Module Curriculum.

Record PhaseRange : Type := { range_start : Z; range_end : Z }.

(** The [phases] object of a plan. *)
Record Phases : Type := {
  beginner : PhaseRange;
  intermediate : PhaseRange;
  advanced : PhaseRange
}.

(** [Math.floor(duration / 3)] and [Math.floor((duration * 2) / 3)] for an
    integer [duration]. *)
Definition beginnerEnd (duration : Z) : Z := duration / 3.
Definition intermediateEnd (duration : Z) : Z := (duration * 2) / 3.

(** [let phase = 'beginner'; if (dayNumber > intermediateEnd) ...
     else if (dayNumber > beginnerEnd) ...] *)
Definition phaseFor (duration dayNumber : Z) : jsstring :=
  if intermediateEnd duration <? dayNumber then str "advanced"
  else if beginnerEnd duration <? dayNumber then str "intermediate"
  else str "beginner".

Definition phaseTable (duration : Z) : Phases :=
  {| beginner := {| range_start := 1; range_end := beginnerEnd duration |};
     intermediate := {| range_start := beginnerEnd duration + 1;
                        range_end := intermediateEnd duration |};
     advanced := {| range_start := intermediateEnd duration + 1;
                    range_end := duration |} |}.

(** The callback of [Array.from({ length: duration }, (_, index) => ...)];
    the field [completed: false] is not read by anything modelled here. *)
Definition fallbackDay (topic : jsstring) (duration : Z) (index : nat) : DayPlan :=
  let dayNumber := Z.of_nat index + 1 in
  let phase := phaseFor duration dayNumber in
  {| day := dayNumber;
     title := topic ++ str " - Day " ++ numberToString dayNumber
              ++ str " (" ++ phase ++ str ")";
     phase := Some phase;
     microTopics :=
       Some [ str "Introduction to Day " ++ numberToString dayNumber ++ str " concepts";
              str "Core principles and theory";
              str "Practical examples and applications";
              str "Review and practice exercises" ] |}.

(** What [generateFallbackPlan] returns: [{ topic, duration, phases, days }]. *)
Record GeneratedPlan : Type := {
  g_structure : LearningPlanStructure;   (* topic and days *)
  g_duration : Z;
  g_phases : Phases
}.

Definition generateFallbackPlan (topic : jsstring) (duration : Z) : GeneratedPlan :=
  {| g_structure :=
       {| topic := topic;
          days := Some (List.map (fallbackDay topic duration)
                                 (seq 0 (Z.to_nat duration))) |};
     g_duration := duration;
     g_phases := phaseTable duration |}.

(** [getPhase] of the plan view (client): the phase of a day read off the
    [phases] table. *)
Definition getPhase (phases : option Phases) (dayNumber : Z) : jsstring :=
  match phases with
  | None => str "beginner"
  | Some table =>
      if dayNumber <=? range_end (beginner table) then str "beginner"
      else if dayNumber <=? range_end (intermediate table) then str "intermediate"
      else str "advanced"
  end.

End Curriculum.
Export Curriculum.

(** ** MemStorage (server/storage.ts)                                    *)

Module Storage.

(** A search-history entry; the random [id] is left out, the timestamp is
    the [getTime()] of its [Date]. *)
Record SearchHistory : Type := { h_query : jsstring; h_timestamp : Z }.

(** [addSearchHistory({ query })] at clock value [now], as a function of
    [this.searchHistory]. *)
Definition addSearchHistory (query : jsstring) (now : Z) (searchHistory : list SearchHistory)
  : list SearchHistory :=
  let searchHistory :=
    List.filter (λ item, negb (bool_decide (h_query item = query))) searchHistory in
  let searchHistory := push searchHistory {| h_query := query; h_timestamp := now |} in
  if (50 <? length searchHistory)%nat then sliceLast 50 searchHistory
  else searchHistory.

(** [getSearchHistory()]: a copy, newest first, at most 50. *)
Definition getSearchHistory (searchHistory : list SearchHistory) : list SearchHistory :=
  slice0 50 (sortWith (λ a b, h_timestamp b - h_timestamp a) searchHistory).

Definition clearSearchHistory (searchHistory : list SearchHistory) : list SearchHistory := [].

(** [progress[day] = { completed, timestamp }] *)
Record ProgressEntry : Type := { completed : bool; timestamp : jsstring }.

Record LearningPlan : Type := {
  lp_id : jsstring;
  lp_topic : jsstring;
  lp_duration : Z;
  lp_plan : LearningPlanStructure;
  lp_progress : gmap Z ProgressEntry;
  lp_createdAt : Z
}.

(** A [Map] with string keys, as the list of its entries in insertion
    order. [map.set(k, v)] replaces the value of a present key where it
    stands and appends an absent one. *)
Fixpoint mapSet {V} (k : jsstring) (v : V) (m : list (jsstring * V)) : list (jsstring * V) :=
  match m with
  | [] => [(k, v)]
  | (k', v') :: rest =>
      if bool_decide (k = k') then (k, v) :: rest else (k', v') :: mapSet k v rest
  end.

Fixpoint mapGet {V} (k : jsstring) (m : list (jsstring * V)) : option V :=
  match m with
  | [] => None
  | (k', v') :: rest => if bool_decide (k = k') then Some v' else mapGet k rest
  end.

(** [createLearningPlan(plan)] with [id] the value of [randomUUID()] and
    [now] the clock. *)
Definition createLearningPlan (id : jsstring) (now : Z) (topic : jsstring) (duration : Z)
    (plan : LearningPlanStructure) (learningPlans : list (jsstring * LearningPlan))
  : list (jsstring * LearningPlan) :=
  mapSet id {| lp_id := id; lp_topic := topic; lp_duration := duration;
               lp_plan := plan; lp_progress := ∅; lp_createdAt := now |}
         learningPlans.

Definition getLearningPlan (id : jsstring) (learningPlans : list (jsstring * LearningPlan))
  : option LearningPlan :=
  mapGet id learningPlans.

(** [getActiveLearningPlans()]: newest first, at most 10. *)
Definition getActiveLearningPlans (learningPlans : list (jsstring * LearningPlan))
  : list LearningPlan :=
  slice0 10 (sortWith (λ a b, lp_createdAt b - lp_createdAt a) (learningPlans.*2)).

(** [updateLearningPlanProgress(planId, day, completed)] with [iso] the
    value of [new Date().toISOString()]. *)
Definition updateLearningPlanProgress (planId : jsstring) (dayNumber : Z) (done : bool)
    (iso : jsstring) (learningPlans : list (jsstring * LearningPlan))
  : list (jsstring * LearningPlan) :=
  match mapGet planId learningPlans with
  | Some plan =>
      let progress := lp_progress plan in
      let progress := <[dayNumber := {| completed := done; timestamp := iso |}]> progress in
      mapSet planId
        {| lp_id := lp_id plan; lp_topic := lp_topic plan; lp_duration := lp_duration plan;
           lp_plan := lp_plan plan; lp_progress := progress;
           lp_createdAt := lp_createdAt plan |}
        learningPlans
  | None => learningPlans
  end.

(** [getResourcesByPlanId(planId)] on the rows of [this.resources] in
    insertion order. *)
Definition getResourcesByPlanId (planId : jsstring) (rows : list Resource) : list Resource :=
  sortWith (λ a b, r_day a - r_day b)
    (List.filter (λ resource, bool_decide (r_planId resource = planId)) rows).

End Storage.
Export Storage.

(** ** Reading resources back ([GET /api/resources/:planId])              *)

(** The body of [resources.forEach]: create the day's object when it is
    missing, then assign the source's entry. An object is modelled by its
    own properties, which are what [res.json] writes out; an assignment to
    [__proto__] goes to the setter of [Object.prototype] and adds none. *)
Definition groupStep (groupedResources : gmap Z (gmap jsstring (list JsVal)))
    (resource : Resource) : gmap Z (gmap jsstring (list JsVal)) :=
  let ofDay := default ∅ (groupedResources !! r_day resource) in
  <[r_day resource :=
      if bool_decide (r_source resource = str "__proto__") then ofDay
      else <[r_source resource := r_data resource]> ofDay]> groupedResources.

(** The object [groupedResources] the handler answers with when the plan
    has rows. *)
Definition groupResources (planId : jsstring) (rows : list Resource)
  : gmap Z (gmap jsstring (list JsVal)) :=
  fold_left groupStep (getResourcesByPlanId planId rows) ∅.

(** ** The client's search history (hook [useSearchHistory])             *)

(** The updater passed to [setHistory] by [addSearch(query)]. *)
Definition addSearch (query : jsstring) (prev : list jsstring) : list jsstring :=
  slice0 50 (query :: List.filter (λ q, negb (bool_decide (q = query))) prev).

(** [useLocalStorage] under [useSearchHistory], over time. A render
    returns its state [storedValue] as [history], with an [addSearch]
    whose [setValue] has captured this state: [value(storedValue)] applies
    the updater to the captured state, not to the value set last, and
    hands the result to [setStoredValue]. The next render has the value
    handed over last. The item of local storage is written and not read
    again before the next mount; it is not modelled. *)
Record Hook : Type := {
  storedValue : list jsstring;        (* the state of the latest render *)
  earlier : list (list jsstring);     (* the states of the renders before, latest first *)
  pending : option (list jsstring)    (* handed to [setStoredValue] since the latest render *)
}.

(** The first render, with the value read at the mount. *)
Definition mounted (initialValue : list jsstring) : Hook :=
  {| storedValue := initialValue; earlier := []; pending := None |}.

(** What happens to the hook: a call of the [addSearch] that the render
    [age] renders ago returned (0 for the latest), a call of
    [clearHistory], or a render. *)
Inductive HookEvent : Type :=
| CallAddSearch (age : nat) (query : jsstring)
| CallClearHistory
| Render.

Definition hookStep (hook : Hook) (e : HookEvent) : Hook :=
  match e with
  | CallAddSearch age query =>
      match (storedValue hook :: earlier hook) !! age with
      | Some captured =>
          {| storedValue := storedValue hook; earlier := earlier hook;
             pending := Some (addSearch query captured) |}
      | None => hook                                   (* no such render *)
      end
  | CallClearHistory =>
      {| storedValue := storedValue hook; earlier := earlier hook; pending := Some [] |}
  | Render =>
      {| storedValue := default (storedValue hook) (pending hook);
         earlier := storedValue hook :: earlier hook;
         pending := None |}
  end.

(** ** Notions for the properties of this part                           *)

(** The data of the row written last among those of (plan, day, source). *)
Definition lastWritten (planId : jsstring) (dayNumber : Z) (source : jsstring)
    (rows : list Resource) : option (list JsVal) :=
  r_data <$> last (List.filter
                     (λ resource, bool_decide (r_planId resource = planId)
                                  && bool_decide (r_day resource = dayNumber)
                                  && bool_decide (r_source resource = source))
                     rows).

(** The range of the [phases] table that a phase name selects. *)
Definition rangeOf (table : Phases) (ph : jsstring) : option PhaseRange :=
  if bool_decide (ph = str "beginner") then Some (beginner table)
  else if bool_decide (ph = str "intermediate") then Some (intermediate table)
  else if bool_decide (ph = str "advanced") then Some (advanced table)
  else None.

(** The days of a list that carry a given phase. *)
Definition withPhase (ph : string) (ds : list DayPlan) : list DayPlan :=
  List.filter (λ d, bool_decide (phase d = Some (str ph))) ds.

(** The server's history after the searches [events] (query and clock
    value of each, oldest first), from an empty history. *)
Definition serverHistory (events : list (jsstring * Z)) : list SearchHistory :=
  fold_left (λ searchHistory e, addSearchHistory e.1 e.2 searchHistory) events [].

(** The history the hook shows after the searches [queries], from an
    empty history, when each search calls the [addSearch] of the latest
    render and a render follows it before the next. *)
Definition clientHistory (queries : list jsstring) : list jsstring :=
  storedValue
    (fold_left hookStep
       (flat_map (λ query, [CallAddSearch 0 query; Render]) queries)
       (mounted [])).

(** The 50 most recent distinct queries of a sequence of searches, the
    most recent first. *)
Definition recentDistinct (queries : list jsstring) : list jsstring :=
  take 50 (dedupFirstSeen (rev queries)).

(** The lookups the orchestrator spawns for one day, and for a plan, when
    none of them is left pending. *)
Definition dayCalls (planStructure : LearningPlanStructure) (d : DayPlan)
  : list (jsstring * jsstring) :=
  flat_map
    (λ source,
       (λ query, (source, query))
         <$> optimizeQueriesForSource source
               (generateComprehensiveSearchQueries planStructure d)
               (topic planStructure))
    sources.

Definition planCalls (planStructure : LearningPlanStructure) : list (jsstring * jsstring) :=
  flat_map (dayCalls planStructure) (default [] (days planStructure)).

(** [st'] holds the rows of [st] and, after them, rows that satisfy [P]. *)
Definition appends (P : Resource → Prop) (st st' : State) : Prop :=
  ∃ added, resources st' = resources st ++ added ∧ Forall P added.

(** [st'] holds the lookups of [st] and, after them, the first of
    [expected] in their order: all of them when the run came to its
    end. *)
Definition spawns {A} (expected : list (jsstring * jsstring)) (st : State)
    (r : Run A) (st' : State) : Prop :=
  ∃ new, calls st' = calls st ++ new ∧ new `prefix_of` expected
         ∧ ∀ a, r = Done a → new = expected.

(** A row of the plan [planId], for one of the four sources and a day of
    [planStructure]. *)
Definition rowOf (planId : jsstring) (planStructure : LearningPlanStructure)
    (record : Resource) : Prop :=
  r_planId record = planId ∧ r_source record ∈ sources
  ∧ r_day record ∈ day <$> default [] (days planStructure).

(** ** An example store                                                  *)

(** The plan of the example as [createLearningPlan] stored it at clock
    value 10. *)
Definition storedRust : LearningPlan :=
  {| lp_id := str "plan-1"; lp_topic := str "rust ownership"; lp_duration := 1;
     lp_plan := rustPlan; lp_progress := ∅; lp_createdAt := 10 |}.

(* ===================================================================== *)
(** * Properties                                                         *)
(* ===================================================================== *)

(** ** Strings *)

Section StringFacts.
Implicit Types s : jsstring.

Example trim_example : trim (str "  a b  ") = str "a b".
Proof. reflexivity. Qed.

Example encodeURIComponent_ascii :
  encodeURIComponent (str "a b&c/d?e=f~(x)'!*") = Some (str "a%20b%26c%2Fd%3Fe%3Df~(x)'!*").
Proof. reflexivity. Qed.

(** U+20AC, then U+1F600 as a surrogate pair. *)
Example encodeURIComponent_utf8 :
  encodeURIComponent [8364%N; 55357%N; 56832%N] = Some (str "%E2%82%AC%F0%9F%98%80").
Proof. reflexivity. Qed.

(** The same pair in the wrong order. *)
Example encodeURIComponent_unpaired : encodeURIComponent [56832%N; 55357%N] = None.
Proof. reflexivity. Qed.

Example immediateQuery_example :
  immediateQuery (str "rust") 3 = str "rust day 3 fundamentals".
Proof. reflexivity. Qed.

Lemma trimStart_nil s : trimStart s = [] ↔ blank s.
Proof.
  unfold blank. induction s as [|c s IH]; simpl.
  - split; [constructor | done].
  - destruct (isWhiteSpace c) eqn:Hc.
    + rewrite IH. split; [by constructor | by inversion 1].
    + split; [done | inversion 1; congruence].
Qed.

Lemma trimStart_head s c t : trimStart s = c :: t → isWhiteSpace c = false.
Proof.
  induction s as [|d s IH]; simpl; [done|].
  destruct (isWhiteSpace d) eqn:Hd; [done | congruence].
Qed.

(** [s.trim() === ''] exactly when [s] is empty or white space only. *)
Lemma trim_nil s : trim s = [] ↔ blank s.
Proof.
  unfold trim, trimEnd. split.
  - intros H. apply trimStart_nil.
    destruct (trimStart s) as [|c t] eqn:Hs; [done|].
    assert (Hb : blank (rev (c :: t))).
    { apply trimStart_nil. apply (f_equal (@rev N)) in H.
      by rewrite rev_involutive in H. }
    apply trimStart_head in Hs. unfold blank in Hb.
    rewrite Forall_forall in Hb. rewrite Hb in Hs; [done|].
    apply list_elem_of_In, in_rev. rewrite rev_involutive. by left.
  - intros H. apply trimStart_nil in H. by rewrite H.
Qed.

Lemma isUnreserved_ascii c : isUnreserved c = true → (c < 128)%N.
Proof.
  unfold isUnreserved, inRange.
  rewrite !orb_true_iff, !andb_true_iff, !N.leb_le, !N.eqb_eq. lia.
Qed.

(** [encodeURIComponent] answers exactly on the strings without unpaired
    surrogate. *)
Lemma encodeURIComponent_wellFormed s :
  is_Some (encodeURIComponent s) ↔ wellFormed s = true.
Proof.
  assert (Hfm : ∀ {A B} (f : A → B) (o : option A), is_Some (f <$> o) ↔ is_Some o).
  { intros A B f [a|]; simpl; split; intros [x Hx]; by eauto. }
  assert (H : ∀ n s, (length s ≤ n)%nat →
                is_Some (encodeURIComponent s) ↔ wellFormed s = true).
  { clear s. induction n as [|n IH]; intros [|c s] Hn; simpl in *;
      try (split; by eauto); [lia|].
    destruct (isUnreserved c) eqn:Hu.
    - rewrite Hfm, IH by lia.
      assert (isTrailingSurrogate c = false ∧ isLeadingSurrogate c = false) as [-> ->];
        [|done].
      apply isUnreserved_ascii in Hu.
      unfold isTrailingSurrogate, isLeadingSurrogate, inRange.
      split; apply andb_false_iff; left; apply N.leb_gt; lia.
    - destruct (isTrailingSurrogate c); [split; [by intros [? ?] | done]|].
      destruct (isLeadingSurrogate c).
      + destruct s as [|d s]; [split; [by intros [? ?] | done]|].
        destruct (isTrailingSurrogate d); simpl.
        * rewrite Hfm. apply IH. simpl in Hn. lia.
        * split; [by intros [? ?] | done].
      + rewrite Hfm. apply IH. lia. }
  by apply (H (length s)).
Qed.

End StringFacts.

(** ** [Set], [push] and first-seen deduplication *)

Section SetFacts.
Implicit Types xs ys s : list jsstring.

Lemma fold_push {A} (xs acc : list A) : fold_left push xs acc = acc ++ xs.
Proof.
  revert acc. induction xs as [|x xs IH]; intros acc; simpl.
  - by rewrite app_nil_r.
  - rewrite IH. unfold push. by rewrite <- app_assoc.
Qed.

(** Adding the elements of [xs] to a set that already holds [s] appends,
    in first-seen order, those that [s] lacks. *)
Lemma fold_Set_add xs s :
  fold_left Set_add xs s = s ++ filter (λ y, y ∉ s) (dedupFirstSeen xs).
Proof.
  revert s. induction xs as [|x xs IH]; intros s; simpl.
  - by rewrite filter_nil, app_nil_r.
  - unfold Set_add at 2, Set_has. rewrite IH. case_bool_decide as Hx.
    + rewrite filter_cons_False by naive_solver.
      rewrite list_filter_filter. f_equal. apply list_filter_iff.
      intros y. split; [|naive_solver]. intros Hy. split; [done | congruence].
    + rewrite filter_cons_True by done.
      rewrite list_filter_filter, <- app_assoc. simpl. do 2 f_equal.
      apply list_filter_iff. intros y.
      rewrite elem_of_app, list_elem_of_singleton. naive_solver.
Qed.

(** [[...new Set(xs)]] is first-seen deduplication. *)
Lemma spreadSet_dedup xs : spreadSet xs = dedupFirstSeen xs.
Proof.
  unfold spreadSet, new_Set. rewrite fold_Set_add. simpl.
  induction (dedupFirstSeen xs) as [|y l IH]; [done|].
  rewrite filter_cons_True; [by rewrite IH | apply not_elem_of_nil].
Qed.

Lemma elem_of_dedup x xs : x ∈ dedupFirstSeen xs ↔ x ∈ xs.
Proof.
  induction xs as [|y xs IH]; simpl; [done|].
  rewrite !elem_of_cons, list_elem_of_filter, IH.
  destruct (decide (x = y)); naive_solver.
Qed.

Lemma NoDup_dedup xs : NoDup (dedupFirstSeen xs).
Proof.
  induction xs as [|y xs IH]; simpl; [constructor|].
  apply NoDup_cons. split; [|by apply NoDup_filter].
  rewrite list_elem_of_filter. naive_solver.
Qed.

(** The order of the input is kept. *)
Lemma dedup_sublist xs : dedupFirstSeen xs `sublist_of` xs.
Proof.
  induction xs as [|y xs IH]; simpl; [done|].
  apply sublist_skip. etrans; [apply sublist_filter | done].
Qed.

(** What is kept of a prefix does not depend on what follows: the first
    occurrence wins. *)
Lemma dedup_app xs ys :
  dedupFirstSeen (xs ++ ys)
  = dedupFirstSeen xs ++ filter (λ y, y ∉ xs) (dedupFirstSeen ys).
Proof.
  induction xs as [|x xs IH]; simpl.
  - induction (dedupFirstSeen ys) as [|y l IHl]; [done|].
    rewrite filter_cons_True; [by rewrite <- IHl | apply not_elem_of_nil].
  - f_equal. rewrite IH, filter_app, list_filter_filter. f_equal.
    apply list_filter_iff. intros y. rewrite not_elem_of_cons. naive_solver.
Qed.

Lemma dedup_NoDup_id xs : NoDup xs → dedupFirstSeen xs = xs.
Proof.
  induction 1 as [|x xs Hx Hnd IH]; simpl; [done|].
  rewrite IH. f_equal. clear IH Hnd.
  induction xs as [|y xs IH]; [done|].
  apply not_elem_of_cons in Hx as [Hxy Hx].
  rewrite filter_cons_True by congruence. by rewrite IH.
Qed.

End SetFacts.

(** ** Query Synthesizer and Source Query Optimizer *)

Section QueryFacts.
Implicit Types (planStructure : LearningPlanStructure) (d : DayPlan).
Implicit Types (q t m ph source : jsstring) (base : list jsstring).

Lemma fold_micro (f : jsstring → list jsstring) (ms : list jsstring) acc :
  fold_left (λ qs m, fold_left push (f m) qs) ms acc = acc ++ concat (List.map f ms).
Proof.
  revert acc. induction ms as [|m ms IH]; intros acc; simpl.
  - by rewrite app_nil_r.
  - by rewrite IH, fold_push, <- app_assoc.
Qed.

(** The pushes of the synthesizer, block by block. *)
Lemma emittedQueries_blocks planStructure d :
  emittedQueries planStructure d
  = primaryQueries (topic planStructure) (title d)
    ++ phaseQueries (topic planStructure) (title d) (phaseOf d)
    ++ concat (List.map (microTopicQueries (topic planStructure) (phaseOf d))
                        (microTopicsOf d))
    ++ documentationQueries (topic planStructure).
Proof.
  unfold emittedQueries. cbv zeta. rewrite !fold_push, fold_micro.
  by rewrite app_nil_l, <- !app_assoc.
Qed.

Lemma synthesizer_unfold planStructure d :
  generateComprehensiveSearchQueries planStructure d
  = take 12 (dedupFirstSeen (emittedQueries planStructure d)).
Proof. unfold generateComprehensiveSearchQueries, slice0. by rewrite spreadSet_dedup. Qed.

Lemma optimizer_unfold source base t :
  optimizeQueriesForSource source base t
  = take 8 (dedupFirstSeen (base ++ sourceQueries source t)).
Proof.
  unfold optimizeQueriesForSource, slice0. cbv zeta.
  by rewrite spreadSet_dedup, fold_push.
Qed.

Lemma NoDup_take_of {A} (n : nat) (l : list A) : NoDup l → NoDup (take n l).
Proof. intros H. eapply sublist_NoDup; [done | apply sublist_take]. Qed.

Lemma elem_of_take_in {A} (n : nat) (x : A) (l : list A) : x ∈ take n l → x ∈ l.
Proof. intros H. rewrite <- (take_drop n l). apply elem_of_app. by left. Qed.

Lemma elem_of_take_app {A} (n : nat) (x : A) (l1 l2 : list A) :
  x ∈ l1 → (length l1 ≤ n)%nat → x ∈ take n (l1 ++ l2).
Proof.
  intros Hx Hn. rewrite take_app, (take_ge l1) by done. apply elem_of_app. by left.
Qed.

(** A query pushed among the first [n] survives deduplication and a cap of
    [n]. *)
Lemma elem_of_take_dedup (n : nat) q (l1 l2 : list jsstring) :
  q ∈ l1 → (length l1 ≤ n)%nat → q ∈ take n (dedupFirstSeen (l1 ++ l2)).
Proof.
  intros Hq Hn. rewrite dedup_app. apply elem_of_take_app.
  - by apply elem_of_dedup.
  - etrans; [apply sublist_length, dedup_sublist | done].
Qed.

(** C6. For every plan and day the synthesizer returns the pushed queries
    deduplicated by string equality in first-seen order and cut to the
    first 12; the result has at most 12 entries and no duplicate. *)
Theorem synthesizer_dedup_cap planStructure d :
  generateComprehensiveSearchQueries planStructure d
    = take 12 (dedupFirstSeen (emittedQueries planStructure d))
  ∧ (length (generateComprehensiveSearchQueries planStructure d) ≤ 12)%nat
  ∧ NoDup (generateComprehensiveSearchQueries planStructure d).
Proof.
  rewrite synthesizer_unfold. split_and!.
  - done.
  - rewrite length_take. lia.
  - apply NoDup_take_of, NoDup_dedup.
Qed.

(** C8. The optimizer returns the base list followed by the four queries
    of the source, deduplicated in first-seen order and cut to 8; the four
    queries are the fixed ones of each source, and a source outside the
    four adds nothing. *)
Theorem optimizer_append_dedup_cap source base t :
  optimizeQueriesForSource source base t
    = take 8 (dedupFirstSeen (base ++ sourceQueries source t))
  ∧ sourceQueries (str "youtube") t
    = [ t ++ str " tutorial step by step"; str "how to learn " ++ t;
        t ++ str " course"; t ++ str " explained" ]
  ∧ sourceQueries (str "medium") t
    = [ t ++ str " deep dive"; t ++ str " comprehensive guide";
        str "mastering " ++ t; t ++ str " best practices" ]
  ∧ sourceQueries (str "reddit") t
    = [ str "learning " ++ t; t ++ str " discussion";
        t ++ str " help"; t ++ str " resources" ]
  ∧ sourceQueries (str "wikipedia") t
    = [ t ++ str " overview"; t ++ str " introduction";
        t ++ str " theory"; t ++ str " principles" ]
  ∧ (source ∉ sources →
       sourceQueries source t = []
       ∧ optimizeQueriesForSource source base t = take 8 (dedupFirstSeen base)).
Proof.
  split_and!; try reflexivity.
  - apply optimizer_unfold.
  - intros Hs. assert (Hnil : sourceQueries source t = []).
    { unfold sourceQueries, sources in *.
      repeat case_bool_decide; subst; try done; exfalso; apply Hs; set_solver. }
    split; [done|]. by rewrite optimizer_unfold, Hnil, app_nil_r.
Qed.

(** Once the base list holds 8 distinct queries, nothing the optimizer
    appends is ever returned. *)
Lemma optimizer_additions_cut source base t :
  NoDup base → (8 ≤ length base)%nat →
  optimizeQueriesForSource source base t = take 8 base.
Proof.
  intros Hnd Hlen.
  rewrite optimizer_unfold, dedup_app, (dedup_NoDup_id base) by done.
  by apply take_app_le.
Qed.

(** C3. The end-to-end example. The synthesizer returns the twelve
    queries below, among them the four named ones, as the claim says. The
    optimizer does push ["rust ownership overview"] for wikipedia, but it
    cuts the list to 8 after the push: what it returns is the first 8 of
    the base list, and the query the claim expects is not in it. *)
Theorem rust_example_queries :
  generateComprehensiveSearchQueries rustPlan rustDay1
    = [ str "rust ownership Intro to ownership";
        str "rust ownership Intro to ownership tutorial";
        str "rust ownership Intro to ownership guide";
        str "rust ownership Intro to ownership fundamentals";
        str "rust ownership Intro to ownership basics";
        str "learn rust ownership Intro to ownership";
        str "rust ownership move semantics";
        str "move semantics explained";
        str "move semantics tutorial";
        str "rust ownership move semantics beginner";
        str "rust ownership borrowing";
        str "borrowing explained" ]
  ∧ str "rust ownership overview"
      ∈ generateComprehensiveSearchQueries rustPlan rustDay1
        ++ sourceQueries (str "wikipedia") (topic rustPlan)
  ∧ optimizeQueriesForSource (str "wikipedia")
      (generateComprehensiveSearchQueries rustPlan rustDay1) (topic rustPlan)
    = take 8 (generateComprehensiveSearchQueries rustPlan rustDay1)
  ∧ bool_decide
      (str "rust ownership overview"
         ∈ optimizeQueriesForSource (str "wikipedia")
             (generateComprehensiveSearchQueries rustPlan rustDay1) (topic rustPlan))
    = false.
Proof.
  split_and!.
  - by vm_compute.
  - apply (bool_decide_unpack _). by vm_compute.
  - by vm_compute.
  - by vm_compute.
Qed.

(** The wikipedia list of the end-to-end example in full: the eight
    queries below; ["rust ownership overview"] is not one of them. *)
Lemma rust_wikipedia_list_lacks_overview :
  optimizeQueriesForSource (str "wikipedia")
    (generateComprehensiveSearchQueries rustPlan rustDay1) (topic rustPlan)
  = [ str "rust ownership Intro to ownership";
      str "rust ownership Intro to ownership tutorial";
      str "rust ownership Intro to ownership guide";
      str "rust ownership Intro to ownership fundamentals";
      str "rust ownership Intro to ownership basics";
      str "learn rust ownership Intro to ownership";
      str "rust ownership move semantics";
      str "move semantics explained" ]
  ∧ str "rust ownership overview"
      ∉ optimizeQueriesForSource (str "wikipedia")
          (generateComprehensiveSearchQueries rustPlan rustDay1) (topic rustPlan).
Proof.
  split; [by vm_compute|].
  apply (bool_decide_eq_false_1 _). by vm_compute.
Qed.

End QueryFacts.

(** ** Shape of the emitted queries *)

Section QueryShape.
Implicit Types (planStructure : LearningPlanStructure) (d : DayPlan).
Implicit Types (q t ti m ph : jsstring).

Lemma elem_of_concat_map {A B} (f : A → list B) (l : list A) (y : B) :
  y ∈ concat (List.map f l) ↔ ∃ x, x ∈ l ∧ y ∈ f x.
Proof.
  rewrite list_elem_of_In, in_concat. split.
  - intros (ys & Hys & Hy). apply in_map_iff in Hys as (x & <- & Hx).
    exists x. by rewrite !list_elem_of_In.
  - intros (x & Hx & Hy). exists (f x). split.
    + apply in_map_iff. exists x. split; [done | by apply list_elem_of_In].
    + by apply list_elem_of_In.
Qed.

Lemma literal_nonempty (lit : string) : lit ≠ ""%string → str lit ≠ [].
Proof. by destruct lit. Qed.

Lemma template_mid a (lit : string) b : lit ≠ ""%string → a ++ str lit ++ b ≠ [].
Proof.
  intros Hl H. apply app_eq_nil in H as [_ H]. apply app_eq_nil in H as [H _].
  by apply (literal_nonempty lit).
Qed.

Lemma template_end a (lit : string) : lit ≠ ""%string → a ++ str lit ≠ [].
Proof. intros Hl H. apply app_eq_nil in H as [_ H]. by apply (literal_nonempty lit). Qed.

Lemma template_start (lit : string) b : lit ≠ ""%string → str lit ++ b ≠ [].
Proof. intros Hl H. apply app_eq_nil in H as [H _]. by apply (literal_nonempty lit). Qed.

(** Every template carries a literal part, so no pushed query is empty. *)
Lemma emitted_nonempty planStructure d q :
  q ∈ emittedQueries planStructure d → q ≠ [].
Proof.
  rewrite emittedQueries_blocks, !elem_of_app, elem_of_concat_map.
  unfold primaryQueries, phaseQueries, microTopicQueries, documentationQueries.
  intros [Hq | [Hq | [(m & _ & Hq) | Hq]]]; revert Hq;
    repeat case_bool_decide; rewrite ?elem_of_cons, ?elem_of_nil;
    intros Hq; destruct_or?; subst; try done;
    first [ by apply template_mid | by apply template_end | by apply template_start ].
Qed.

Lemma phaseOf_absent d :
  phase d = None ∨ phase d = Some [] → phaseOf d = str "beginner".
Proof. unfold phaseOf. by intros [-> | ->]. Qed.

Lemma phaseOf_present d ph : phase d = Some ph → ph ≠ [] → phaseOf d = ph.
Proof. unfold phaseOf. intros -> Hph. by destruct ph. Qed.

(** C10. A day whose phase is absent or the empty string is synthesized
    as a beginner day: the three beginner variants are pushed and are part
    of the result. A non-empty phase outside the three known ones pushes no
    phase block at all, and still ends the fourth query of every
    micro-topic. *)
Theorem phase_default_and_unknown planStructure d :
  (phase d = None ∨ phase d = Some [] →
     emittedQueries planStructure d
       = primaryQueries (topic planStructure) (title d)
         ++ [ topic planStructure ++ str " " ++ title d ++ str " fundamentals";
              topic planStructure ++ str " " ++ title d ++ str " basics";
              str "learn " ++ topic planStructure ++ str " " ++ title d ]
         ++ concat (List.map (microTopicQueries (topic planStructure) (str "beginner"))
                             (microTopicsOf d))
         ++ documentationQueries (topic planStructure)
     ∧ ∀ q, q ∈ [ topic planStructure ++ str " " ++ title d ++ str " fundamentals";
                  topic planStructure ++ str " " ++ title d ++ str " basics";
                  str "learn " ++ topic planStructure ++ str " " ++ title d ] →
            q ∈ generateComprehensiveSearchQueries planStructure d)
  ∧ (∀ ph, phase d = Some ph → ph ≠ [] →
       ph ∉ [str "beginner"; str "intermediate"; str "advanced"] →
       emittedQueries planStructure d
         = primaryQueries (topic planStructure) (title d)
           ++ concat (List.map (microTopicQueries (topic planStructure) ph)
                               (microTopicsOf d))
           ++ documentationQueries (topic planStructure)
       ∧ ∀ m, m ∈ microTopicsOf d →
              topic planStructure ++ str " " ++ m ++ str " " ++ ph
                ∈ emittedQueries planStructure d).
Proof.
  split.
  - intros Habs. apply phaseOf_absent in Habs.
    assert (Hemit : emittedQueries planStructure d
       = (primaryQueries (topic planStructure) (title d)
         ++ [ topic planStructure ++ str " " ++ title d ++ str " fundamentals";
              topic planStructure ++ str " " ++ title d ++ str " basics";
              str "learn " ++ topic planStructure ++ str " " ++ title d ])
         ++ concat (List.map (microTopicQueries (topic planStructure) (str "beginner"))
                             (microTopicsOf d))
         ++ documentationQueries (topic planStructure)).
    { rewrite emittedQueries_blocks, Habs. unfold phaseQueries.
      rewrite bool_decide_eq_true_2 by done. by rewrite <- app_assoc. }
    split; [by rewrite Hemit, <- app_assoc|].
    intros q Hq. rewrite synthesizer_unfold, Hemit.
    apply elem_of_take_dedup; [|simpl; lia].
    apply elem_of_app. by right.
  - intros ph Hph Hne Hunk.
    rewrite !not_elem_of_cons in Hunk. destruct Hunk as (Hb & Hi & Ha & _).
    assert (Hemit : emittedQueries planStructure d
         = primaryQueries (topic planStructure) (title d)
           ++ concat (List.map (microTopicQueries (topic planStructure) ph)
                               (microTopicsOf d))
           ++ documentationQueries (topic planStructure)).
    { rewrite emittedQueries_blocks, (phaseOf_present d ph) by done.
      unfold phaseQueries. by rewrite !bool_decide_eq_false_2 by done. }
    split; [done|]. intros m Hm. rewrite Hemit, !elem_of_app. right; left.
    apply elem_of_concat_map. exists m. split; [done|].
    unfold microTopicQueries. set_solver.
Qed.

End QueryShape.

(** ** Empty titles and micro-topics *)

Section EmptyParts.
Implicit Types (planStructure : LearningPlanStructure) (d : DayPlan).

(** The first query returned is always [`${topic} ${title}`]. *)
Lemma synthesizer_head planStructure d :
  head (generateComprehensiveSearchQueries planStructure d)
  = Some (topic planStructure ++ str " " ++ title d).
Proof. by rewrite synthesizer_unfold, emittedQueries_blocks. Qed.

(** C7, as the code has it. No returned query is empty. Nothing is
    skipped: the result is cut from the templates instantiated with
    whatever the title and the micro-topics are, the empty string
    included, so that an empty title yields the query [`${topic} `] first,
    and every micro-topic, empty or not, has its four queries pushed. *)
Theorem synthesizer_nonempty_no_skip planStructure d :
  Forall (λ q, q ≠ []) (generateComprehensiveSearchQueries planStructure d)
  ∧ generateComprehensiveSearchQueries planStructure d
    = take 12 (dedupFirstSeen
        (primaryQueries (topic planStructure) (title d)
         ++ phaseQueries (topic planStructure) (title d) (phaseOf d)
         ++ concat (List.map (microTopicQueries (topic planStructure) (phaseOf d))
                             (microTopicsOf d))
         ++ documentationQueries (topic planStructure)))
  ∧ (title d = [] →
       head (generateComprehensiveSearchQueries planStructure d)
       = Some (topic planStructure ++ str " "))
  ∧ (∀ m q, m ∈ microTopicsOf d →
       q ∈ microTopicQueries (topic planStructure) (phaseOf d) m →
       q ∈ emittedQueries planStructure d).
Proof.
  split_and!.
  - apply Forall_forall. intros q Hq. apply (emitted_nonempty planStructure d).
    rewrite synthesizer_unfold in Hq.
    apply elem_of_dedup. eapply elem_of_take_in, Hq.
  - by rewrite synthesizer_unfold, emittedQueries_blocks.
  - intros Ht. by rewrite synthesizer_head, Ht, app_nil_r.
  - intros m q Hm Hq. rewrite emittedQueries_blocks, !elem_of_app. right; right; left.
    apply elem_of_concat_map. eauto.
Qed.

(** C7, counterexample. For topic ["go"] and a day with an empty title and
    one empty micro-topic, the synthesizer returns eleven queries, eight
    of them built around the empty strings (["go "], [" explained"], ...), where skipping
    the malformed ones would leave the three documentation queries. *)
Lemma synthesizer_keeps_malformed :
  generateComprehensiveSearchQueries goPlan emptyDay
    = [ str "go "; str "go  tutorial"; str "go  guide";
        str "go  advanced"; str "go  optimization"; str "go  best practices";
        str " explained"; str " tutorial";
        str "go documentation"; str "go reference"; str "go technical guide" ]
  ∧ synthesizerSkippingMalformed goPlan emptyDay
    = [ str "go documentation"; str "go reference"; str "go technical guide" ]
  ∧ generateComprehensiveSearchQueries goPlan emptyDay
    ≠ synthesizerSkippingMalformed goPlan emptyDay.
Proof. split_and!; by vm_compute. Qed.

End EmptyParts.

(** ** Source Fetcher *)

Section FetcherFacts.
Variable JSON_parse : jsstring -> Completion JsVal.
Implicit Types (source query output : jsstring) (o : Outcome) (r : JsVal).

(** The callback of the ['close'] handler's filter never throws. *)
Lemma isValidResult_total r : isValidResult r = Normal (hasGoodTitle r).
Proof.
  unfold isValidResult, hasGoodTitle, titleOf.
  destruct r as [| |[]|n|s|elems|props]; cbn -[str]; try done.
  - by destruct (n =? 0).
  - by case_bool_decide.
Qed.

Lemma filterC_total {A} (p : A → Completion bool) (f : A → bool) (l : list A) :
  (∀ x, p x = Normal (f x)) → filterC p l = Normal (List.filter f l).
Proof.
  intros Hp. induction l as [|x l IH]; simpl; [done|].
  rewrite Hp, IH. simpl. by destruct (f x).
Qed.

Lemma filterResults_array elems :
  filterResults (JArr elems) = Normal (List.filter hasGoodTitle elems).
Proof. apply filterC_total, isValidResult_total. Qed.

(** The fetcher resolves with the real results when there are some, and in
    every other case ends the way [resolve(generateFallbackResults(...))]
    ends. *)
Lemma fetch_cases source query o :
  fetchResourcesFromSource JSON_parse source query o
  = match realResults JSON_parse o with
    | Some valid => Resolved valid
    | None => resolveFallback source query
    end.
Proof.
  destruct o as [code output| |]; simpl; try done.
  destruct code as [[| |]|]; simpl; try done.
  case_bool_decide as Hblank; simpl; [done|].
  unfold closeTry. destruct (JSON_parse output) as [v|e]; [|done].
  cbn [bindC]. destruct v; try done.
  rewrite filterResults_array. cbn [bindC].
  destruct (List.filter hasGoodTitle elems) as [|x valid]; simpl; [|done].
  unfold resolveFallback. by destruct (generateFallbackResults source query).
Qed.

End FetcherFacts.

Section FallbackFacts.
Implicit Types (source query : jsstring) (content : Content).

Lemma wellFormed_app a b : wellFormed a = true → wellFormed b = true → wellFormed (a ++ b) = true.
Proof.
  intros Ha Hb.
  assert (H : ∀ n a, (length a ≤ n)%nat → wellFormed a = true → wellFormed (a ++ b) = true).
  { clear a Ha. induction n as [|n IH]; intros [|c a] Hn Ha; simpl in *; try done; [lia|].
    destruct (isTrailingSurrogate c); [done|].
    destruct (isLeadingSurrogate c).
    - destruct a as [|d a]; [done|]. simpl in *.
      apply andb_true_iff in Ha as [-> Ha]. simpl. apply IH; [lia | done].
    - apply IH; [lia | done]. }
  by apply (H (length a)).
Qed.

Lemma encode_wellFormed query : wellFormed query = true → ∃ e, encode query = Normal e.
Proof.
  intros H. apply encodeURIComponent_wellFormed in H as [e He].
  exists e. unfold encode. by rewrite He.
Qed.

Lemma encode_illFormed query : wellFormed query = false → encode query = Throw URIError.
Proof.
  intros H. unfold encode. destruct (encodeURIComponent query) as [e|] eqn:He; [|done].
  assert (Hs : is_Some (encodeURIComponent query)) by eauto.
  apply encodeURIComponent_wellFormed in Hs. congruence.
Qed.

Lemma fallbackItem_metadata source content :
  getProp (fallbackItem source content) (str "metadata") = Normal (fallbackMetadata source).
Proof. reflexivity. Qed.

Lemma fallbackItem_title source content :
  getProp (fallbackItem source content) (str "title") = Normal (JStr (c_title content)).
Proof. reflexivity. Qed.

Lemma fallbackItem_url source content :
  getProp (fallbackItem source content) (str "url") = Normal (JStr (c_url content)).
Proof. reflexivity. Qed.

Lemma fallbackMetadata_fallback source :
  getProp (fallbackMetadata source) (str "fallback") = Normal JUndefined.
Proof. reflexivity. Qed.

Lemma fallbackMetadata_type source :
  getProp (fallbackMetadata source) (str "type") = Normal (JStr (str "fallback_search")).
Proof. reflexivity. Qed.

(** A synthesized item is recognisable by its metadata... *)
Lemma fallbackItem_isFallback source content :
  isFallbackItem (fallbackItem source content) = true.
Proof. reflexivity. Qed.

(** ... but the aggregator's filter reads [metadata.fallback], which the
    synthesizer never sets: the item passes whenever its title is not the
    sentinel and its url is not blank. *)
Lemma fallbackItem_passes source content :
  c_title content ≠ SORRY → ¬ blank (c_url content) →
  isRealResource (fallbackItem source content) = Normal true.
Proof.
  intros Ht Hu. unfold isRealResource.
  rewrite fallbackItem_metadata. cbn [bindC].
  change (isNullish (fallbackMetadata source)) with false. cbn match.
  rewrite fallbackMetadata_fallback. cbn [bindC truthy].
  rewrite fallbackItem_title. cbn [bindC strictEquals].
  rewrite bool_decide_eq_false_2 by done.
  rewrite fallbackItem_url. cbn [bindC truthy callTrim strictEquals negb].
  assert (c_url content ≠ []) as Hne by (intros E; apply Hu; rewrite E; constructor).
  rewrite (bool_decide_eq_false_2 (c_url content = [])) by done. cbn [negb].
  rewrite bool_decide_eq_false_2; [done|]. by rewrite trim_nil.
Qed.

Lemma nonblank_prefix (c : N) (rest w : jsstring) :
  isWhiteSpace c = false → ¬ blank ((c :: rest) ++ w).
Proof. intros Hc Hb. apply Forall_inv in Hb. congruence. Qed.

Lemma suffix_not_SORRY query (lit : string) :
  head (rev (str lit)) ≠ Some 101%N → lit ≠ ""%string → query ++ str lit ≠ SORRY.
Proof.
  intros Hlast Hlit E. apply (f_equal (@rev N)) in E. rewrite rev_app_distr in E.
  apply Hlast. destruct (rev (str lit)) as [|c l] eqn:Hr.
  - apply (f_equal (@rev N)) in Hr. rewrite rev_involutive in Hr.
    by destruct lit.
  - apply (f_equal head) in E. exact E.
Qed.

(** For each of the four sources and a well-formed query the synthesizer
    returns one item, and that item passes the aggregator's filter. *)
Lemma generateFallbackResults_ok source query :
  source ∈ sources → wellFormed query = true →
  ∃ content,
    generateFallbackResults source query = Normal [fallbackItem source content]
    ∧ isRealResource (fallbackItem source content) = Normal true.
Proof.
  intros Hs Hq.
  destruct (encode_wellFormed query Hq) as [w Hw].
  destruct (encode_wellFormed (query ++ str " tutorial")) as [y Hy].
  { by apply wellFormed_app. }
  unfold generateFallbackResults, fallbackContent. rewrite Hw, Hy. cbn [bindC].
  unfold sources in Hs. rewrite !elem_of_cons, elem_of_nil in Hs.
  destruct Hs as [-> | [-> | [-> | [-> | []]]]];
    (eexists; split; [reflexivity|]); apply fallbackItem_passes; cbn [c_title c_url];
    first [ by apply suffix_not_SORRY | by apply nonblank_prefix ].
Qed.

Lemma generateFallbackResults_URIError source query :
  wellFormed query = false → generateFallbackResults source query = Throw URIError.
Proof.
  intros Hq. unfold generateFallbackResults, fallbackContent.
  by rewrite (encode_illFormed query Hq).
Qed.

End FallbackFacts.

(** ** Source Fetcher: what it resolves with *)

Section FetcherContract.
Variable JSON_parse : jsstring -> Completion JsVal.
Implicit Types (source query output : jsstring) (o : Outcome).

Lemma realResults_nonempty o valid : realResults JSON_parse o = Some valid → valid ≠ [].
Proof.
  unfold realResults. intros H.
  repeat (match type of H with context [match ?x with _ => _ end] => destruct x end;
          try done); by inversion H.
Qed.

(** On a query without unpaired surrogate, for each of the four sources,
    every outcome resolves the promise with a non-empty list, the
    synthesized fallback on every path without real results. *)
Lemma fetcher_resolves_wellFormed source query o :
  source ∈ sources → wellFormed query = true →
  ∃ items,
    fetchResourcesFromSource JSON_parse source query o = Resolved items
    ∧ items ≠ []
    ∧ (realResults JSON_parse o = None →
         generateFallbackResults source query = Normal items).
Proof.
  intros Hs Hq. rewrite fetch_cases.
  destruct (realResults JSON_parse o) as [valid|] eqn:Hr.
  - exists valid. split_and!; [done | by eapply realResults_nonempty | done].
  - destruct (generateFallbackResults_ok source query Hs Hq) as (content & Hg & _).
    exists [fallbackItem source content]. unfold resolveFallback. by rewrite Hg.
Qed.

(** On a query with an unpaired surrogate, every path without real results
    ends in an uncaught URIError, whatever the source. *)
Lemma fetcher_uncaught_illFormed source query o :
  wellFormed query = false → realResults JSON_parse o = None →
  fetchResourcesFromSource JSON_parse source query o = Uncaught URIError.
Proof.
  intros Hq Hr. rewrite fetch_cases, Hr. unfold resolveFallback.
  by rewrite generateFallbackResults_URIError.
Qed.

(** C5, as the code has it. When the child exits with code 0 and its
    non-blank output parses to an array, the fetcher resolves with exactly
    the elements that are truthy and carry a truthy title other than the
    two sentinel strings, whatever their url; when there is no such
    element it ends as the fallback for (source, query) does. *)
Theorem fetcher_validates_title_only source query output elems :
  trim output ≠ [] →
  JSON_parse output = Normal (JArr elems) →
  fetchResourcesFromSource JSON_parse source query (Closed (Some 0) output)
  = match List.filter hasGoodTitle elems with
    | [] => resolveFallback source query
    | valid => Resolved valid
    end.
Proof.
  intros Hout Hparse. rewrite fetch_cases. unfold realResults.
  rewrite bool_decide_eq_false_2, Hparse by done.
  by destruct (List.filter hasGoodTitle elems).
Qed.

End FetcherContract.

(** C5, an instance: the lookup prints one item with a title and no url,
    and the fetcher resolves with it. *)
Lemma fetcher_validates_title_only_witness :
  fetchResourcesFromSource parseOneItem (str "wikipedia") (str "ownership")
    (Closed (Some 0) (str "[{}]"))
  = Resolved [itemWithoutUrl].
Proof.
  apply (fetcher_validates_title_only parseOneItem (str "wikipedia") (str "ownership")
           (str "[{}]") [itemWithoutUrl]).
  - by vm_compute.
  - reflexivity.
Defined.

(** C5, counterexample. The lookup prints one item with a title and no
    url. No element passes the validation with the url check, so the
    fallback would be due; the fetcher resolves with the item itself. *)
Lemma fetcher_keeps_item_without_url :
  List.filter passesItemValidation [itemWithoutUrl] = []
  ∧ fetchResourcesFromSource parseOneItem (str "wikipedia") (str "ownership")
      (Closed (Some 0) (str "[{}]"))
    = Resolved [itemWithoutUrl]
  ∧ fetchResourcesFromSource parseOneItem (str "wikipedia") (str "ownership")
      (Closed (Some 0) (str "[{}]"))
    ≠ resolveFallback (str "wikipedia") (str "ownership").
Proof. split_and!; by vm_compute. Qed.

(** C4. For the source wikipedia and a query that is one unpaired
    surrogate, the synthesizer throws a URIError, and the fetcher, on every
    outcome that needs the fallback (non-zero exit, killed child, empty
    output, unparseable output, failed spawn, timeout), leaves the promise
    pending with that error uncaught. *)
Theorem fetcher_unpaired_surrogate :
  generateFallbackResults (str "wikipedia") loneSurrogate = Throw URIError
  ∧ Forall (λ o, fetchResourcesFromSource parseNothing (str "wikipedia") loneSurrogate o
                 = Uncaught URIError)
      [ Closed (Some 1) []; Closed None []; Closed (Some 0) [];
        Closed (Some 0) (str "Traceback"); SpawnFailed; TimedOut ].
Proof. split; [by vm_compute | repeat constructor]. Qed.

(** ** Immediate-Resources path *)

Section ImmediateFacts.
Variable JSON_parse : jsstring -> Completion JsVal.
Variable lookup : nat -> jsstring -> jsstring -> Outcome.
Implicit Types (topic source query : jsstring) (st : State) (n duration : Z).
Implicit Types (ds : list Z) (acc : gmap Z ResourceGroup).

Lemma awaitFetch_resolves source query st :
  resolves JSON_parse lookup (length (calls st)) source query →
  awaitFetch JSON_parse lookup source query st
  = (Done (handedBack JSON_parse lookup (length (calls st)) source query),
     {| calls := calls st ++ [(source, query)]; resources := resources st |}).
Proof. intros [items H]. unfold awaitFetch, handedBack. by rewrite H. Qed.

Lemma awaitFetch_calls source query st (r : Run (list JsVal)) st' :
  awaitFetch JSON_parse lookup source query st = (r, st') →
  calls st' = calls st ++ [(source, query)] ∧ resources st' = resources st.
Proof.
  unfold awaitFetch. destruct (fetchResourcesFromSource _ _ _ _); by intros [= <- <-].
Qed.

Lemma immediateDays_elem duration n :
  n ∈ immediateDays duration ↔ 1 ≤ n ≤ Z.min duration 5.
Proof.
  unfold immediateDays. rewrite list_elem_of_In, in_map_iff. split.
  - intros (k & <- & Hk). apply in_seq in Hk. lia.
  - intros Hn. exists (Z.to_nat n). split; [lia|]. apply in_seq. lia.
Qed.

Lemma immediateDays_lookup duration n :
  1 ≤ n ≤ Z.min duration 5 → immediateDays duration !! Z.to_nat (n - 1) = Some n.
Proof.
  intros Hn. unfold immediateDays.
  change (List.map Z.of_nat) with (fmap (M:=list) Z.of_nat).
  rewrite list_lookup_fmap, lookup_seq_lt by lia. simpl. f_equal. lia.
Qed.

Lemma immediateDays_NoDup duration : NoDup (immediateDays duration).
Proof.
  unfold immediateDays. change (List.map Z.of_nat) with (fmap (M:=list) Z.of_nat).
  apply NoDup_fmap_2; [apply _ | apply NoDup_seq].
Qed.

Lemma immediateGroups_notin topic base ds acc n :
  n ∉ ds →
  immediateGroups JSON_parse lookup topic base ds acc !! n = acc !! n.
Proof.
  revert base acc. induction ds as [|m ds IH]; intros base acc Hn; simpl; [done|].
  apply not_elem_of_cons in Hn as [Hnm Hn]. rewrite IH by done.
  by rewrite lookup_insert_ne.
Qed.

Lemma immediateGroups_lookup topic base ds acc (k : nat) n :
  NoDup ds → ds !! k = Some n →
  immediateGroups JSON_parse lookup topic base ds acc !! n
  = Some (groupAt JSON_parse lookup topic (base + 4 * k) n).
Proof.
  revert base acc k. induction ds as [|m ds IH]; intros base acc k Hnd Hk; [done|].
  apply NoDup_cons in Hnd as [Hm Hnd]. destruct k as [|k]; simpl in *.
  - injection Hk as ->. rewrite immediateGroups_notin by done.
    rewrite lookup_insert_eq. do 2 f_equal. lia.
  - rewrite (IH _ _ k) by done. do 2 f_equal. lia.
Qed.

(** One pass of the loop body when its four lookups resolve. *)
Lemma immediateStep_run topic acc n st :
  (∀ i source, source ∈ sources →
     resolves JSON_parse lookup i source (immediateQuery topic n)) →
  immediateStep JSON_parse lookup topic acc n st
  = (Done (<[n := groupAt JSON_parse lookup topic (length (calls st)) n]> acc),
     {| calls := calls st ++ immediateCalls topic [n]; resources := resources st |}).
Proof.
  intros Hres. unfold immediateStep, bindM.
  rewrite awaitFetch_resolves by (apply Hres; set_solver). cbn [calls resources].
  rewrite awaitFetch_resolves by (apply Hres; set_solver). cbn [calls resources].
  rewrite awaitFetch_resolves by (apply Hres; set_solver). cbn [calls resources].
  rewrite awaitFetch_resolves by (apply Hres; set_solver). cbn [calls resources].
  unfold ret, groupAt. rewrite !length_app. cbn [length].
  rewrite <- !app_assoc. simpl.
  by replace (length (calls st) + 1 + 1)%nat with (length (calls st) + 2)%nat by lia;
     replace (length (calls st) + 2 + 1)%nat with (length (calls st) + 3)%nat by lia.
Qed.

Lemma immediateLoop_run topic ds acc st :
  (∀ i n source, n ∈ ds → source ∈ sources →
     resolves JSON_parse lookup i source (immediateQuery topic n)) →
  forEachM (immediateStep JSON_parse lookup topic) ds acc st
  = (Done (immediateGroups JSON_parse lookup topic (length (calls st)) ds acc),
     {| calls := calls st ++ immediateCalls topic ds; resources := resources st |}).
Proof.
  revert acc st. induction ds as [|n ds IH]; intros acc st Hres.
  - simpl. unfold ret, immediateCalls. simpl. rewrite app_nil_r. by destruct st.
  - cbn [forEachM]. unfold bindM at 1.
    rewrite immediateStep_run by (intros; apply Hres; set_solver).
    rewrite IH by (intros; apply Hres; set_solver). cbn [calls resources].
    rewrite length_app. simpl. by rewrite <- app_assoc.
Qed.

End ImmediateFacts.

Section ImmediateContract.
Variable JSON_parse : jsstring -> Completion JsVal.
Variable lookup : nat -> jsstring -> jsstring -> Outcome.
Implicit Types (topic source query : jsstring) (st : State) (n duration : Z).

Lemma wellFormed_str (lit : string) : wellFormed (str lit) = true.
Proof.
  induction lit as [|a lit IH]; [done|].
  change (str (String a lit)) with (N_of_ascii a :: str lit). simpl.
  pose proof (N_ascii_bounded a) as Ha.
  assert (isTrailingSurrogate (N_of_ascii a) = false) as ->.
  { unfold isTrailingSurrogate, inRange. apply andb_false_iff. left. apply N.leb_gt. lia. }
  assert (isLeadingSurrogate (N_of_ascii a) = false) as ->; [|done].
  unfold isLeadingSurrogate, inRange. apply andb_false_iff. left. apply N.leb_gt. lia.
Qed.

Lemma immediateQuery_wellFormed topic n :
  wellFormed topic = true → wellFormed (immediateQuery topic n) = true.
Proof.
  intros Ht. unfold immediateQuery, numberToString.
  repeat apply wellFormed_app; auto using wellFormed_str.
Qed.

Lemma resolves_wellFormed i source query :
  source ∈ sources → wellFormed query = true →
  resolves JSON_parse lookup i source query.
Proof.
  intros Hs Hq.
  destruct (fetcher_resolves_wellFormed JSON_parse source query
              (lookup i source query) Hs Hq) as (items & H & _).
  by exists items.
Qed.

(** The run of the immediate path when the lookups it awaits resolve. *)
Lemma immediate_run_resolving topic duration st :
  (∀ i n source, 1 ≤ n ≤ Z.min duration 5 → source ∈ sources →
     resolves JSON_parse lookup i source
       (topic ++ str " day " ++ numberToString n ++ str " fundamentals")) →
  ∃ grouped st',
    generateImmediateResources JSON_parse lookup topic duration st = (Done grouped, st')
    ∧ calls st'
      = calls st
        ++ flat_map
             (λ n, List.map
                     (λ source,
                        (source, topic ++ str " day " ++ numberToString n
                                       ++ str " fundamentals"))
                     sources)
             (List.map Z.of_nat (seq 1 (Z.to_nat (Z.min duration 5))))
    ∧ resources st' = resources st
    ∧ (∀ n, 1 ≤ n ≤ Z.min duration 5 →
         ∃ group, grouped !! n = Some group
           ∧ ∀ (k : nat) source (field : ResourceGroup → list JsVal),
               (k, source, field)
                 ∈ [ (0%nat, str "wikipedia", wikipedia); (1%nat, str "youtube", youtube);
                     (2%nat, str "reddit", reddit); (3%nat, str "medium", medium) ] →
               fetchResourcesFromSource JSON_parse source
                 (topic ++ str " day " ++ numberToString n ++ str " fundamentals")
                 (lookup (length (calls st) + 4 * Z.to_nat (n - 1) + k)%nat source
                    (topic ++ str " day " ++ numberToString n ++ str " fundamentals"))
               = Resolved (field group))
    ∧ (∀ n, ¬ (1 ≤ n ≤ Z.min duration 5) → grouped !! n = None).
Proof.
  intros Hres.
  assert (Hres' : ∀ i n source, n ∈ immediateDays duration → source ∈ sources →
     resolves JSON_parse lookup i source (immediateQuery topic n)).
  { intros i n source Hn Hs. apply Hres; [by apply immediateDays_elem | done]. }
  eexists _, _. split; [apply immediateLoop_run, Hres'|]. cbn [calls resources].
  split_and!; try done.
  - intros n Hn. eexists. split.
    + apply immediateGroups_lookup;
        [apply immediateDays_NoDup | by apply immediateDays_lookup].
    + intros k source field Hk.
      rewrite !elem_of_cons, elem_of_nil in Hk.
      assert (Hh : ∀ i s, s ∈ sources →
                fetchResourcesFromSource JSON_parse s (immediateQuery topic n)
                  (lookup i s (immediateQuery topic n))
                = Resolved (handedBack JSON_parse lookup i s (immediateQuery topic n))).
      { intros i s Hs. destruct (Hres i n s Hn Hs) as [items Hi].
        unfold handedBack. fold (immediateQuery topic n) in Hi. by rewrite Hi. }
      destruct Hk as [[= -> -> ->] | [[= -> -> ->] | [[= -> -> ->] | [[= -> -> ->] | []]]]];
        cbn [groupAt wikipedia youtube reddit medium];
        rewrite ?Nat.add_0_r; apply Hh; set_solver.
  - intros n Hn. rewrite immediateGroups_notin; [done|].
    by rewrite immediateDays_elem.
Qed.

(** The immediate path on a topic without unpaired surrogate: it
    spawns, for the days 1, ..., min(duration, 5) in turn and for no other
    day, one lookup per source with the query
    [`${topic} day ${n} fundamentals`], leaves the store as it was, and
    returns for each of these days the four lists exactly as the fetcher
    resolved them (real or fallback, unfiltered), and nothing for any other
    day. *)
Theorem immediate_resources_first_days topic duration st :
  wellFormed topic = true →
  ∃ grouped st',
    generateImmediateResources JSON_parse lookup topic duration st = (Done grouped, st')
    ∧ calls st'
      = calls st
        ++ flat_map
             (λ n, List.map
                     (λ source,
                        (source, topic ++ str " day " ++ numberToString n
                                       ++ str " fundamentals"))
                     sources)
             (List.map Z.of_nat (seq 1 (Z.to_nat (Z.min duration 5))))
    ∧ resources st' = resources st
    ∧ (∀ n, 1 ≤ n ≤ Z.min duration 5 →
         ∃ group, grouped !! n = Some group
           ∧ ∀ (k : nat) source (field : ResourceGroup → list JsVal),
               (k, source, field)
                 ∈ [ (0%nat, str "wikipedia", wikipedia); (1%nat, str "youtube", youtube);
                     (2%nat, str "reddit", reddit); (3%nat, str "medium", medium) ] →
               fetchResourcesFromSource JSON_parse source
                 (topic ++ str " day " ++ numberToString n ++ str " fundamentals")
                 (lookup (length (calls st) + 4 * Z.to_nat (n - 1) + k)%nat source
                    (topic ++ str " day " ++ numberToString n ++ str " fundamentals"))
               = Resolved (field group))
    ∧ (∀ n, ¬ (1 ≤ n ≤ Z.min duration 5) → grouped !! n = None).
Proof.
  intros Ht. apply immediate_run_resolving.
  intros i n source _ Hs. apply resolves_wellFormed; [done|].
  by apply (immediateQuery_wellFormed topic n).
Qed.

(** With a duration of 30 the counter takes the values 1 to 5. *)
Lemma immediateDays_30 : immediateDays 30 = [1; 2; 3; 4; 5].
Proof. reflexivity. Qed.

End ImmediateContract.

(** An instance: a duration of 30 with every lookup timing out. The
    path spawns 20 lookups, stores nothing and returns no entry for day 6. *)
Lemma immediate_resources_first_days_witness :
  ∃ grouped st',
    generateImmediateResources parseNothing allTimedOut (str "rust ownership") 30 initial
    = (Done grouped, st')
    ∧ length (calls st') = 20%nat
    ∧ resources st' = []
    ∧ grouped !! 6 = None.
Proof.
  destruct (immediate_resources_first_days parseNothing allTimedOut
              (str "rust ownership") 30 initial)
    as (grouped & st' & Hrun & Hcalls & Hstore & _ & Hnone).
  - by vm_compute.
  - exists grouped, st'. split_and!; [done | by rewrite Hcalls | done |].
    apply Hnone. simpl. lia.
Defined.

(** ** Immediate-Resources path: a topic with an unpaired surrogate *)

Section ImmediateSurrogate.
Variable JSON_parse : jsstring -> Completion JsVal.
Variable lookup : nat -> jsstring -> jsstring -> Outcome.
Implicit Types (topic : jsstring) (st : State) (duration : Z).

(** An unpaired surrogate stays unpaired when text that does not begin
    with a trailing surrogate is appended. *)
Lemma illFormed_app (a : jsstring) (c : N) (b : jsstring) :
  wellFormed a = false → isTrailingSurrogate c = false →
  wellFormed (a ++ c :: b) = false.
Proof.
  intros Ha Hc.
  assert (H : ∀ n a, (length a ≤ n)%nat → wellFormed a = false →
                     wellFormed (a ++ c :: b) = false).
  { clear a Ha. induction n as [|n IH]; intros [|x a] Hn Ha; simpl in *; try done; [lia|].
    destruct (isTrailingSurrogate x); [done|].
    destruct (isLeadingSurrogate x).
    - destruct a as [|d a]; simpl in *; [by rewrite Hc|].
      destruct (isTrailingSurrogate d); [|done]. simpl in *. apply IH; [lia | done].
    - apply IH; [lia | done]. }
  by apply (H (length a)).
Qed.

Lemma immediateQuery_illFormed topic (n : Z) :
  wellFormed topic = false → wellFormed (immediateQuery topic n) = false.
Proof. intros Ht. unfold immediateQuery. by apply illFormed_app. Qed.

(** C9, where the code departs from it. For a topic with an unpaired
    surrogate and a duration of at least 1, when the first lookup (day 1,
    wikipedia) gives no real results, its fallback throws a URIError
    inside the callback: the immediate path stops at its first [await]
    after this one lookup, returns no list for any day and spawns none of
    the other lookups. *)
Theorem immediate_path_halts_on_surrogate topic duration st :
  wellFormed topic = false → 1 ≤ duration →
  realResults JSON_parse
    (lookup (length (calls st)) (str "wikipedia") (immediateQuery topic 1)) = None →
  generateImmediateResources JSON_parse lookup topic duration st
  = (Halted URIError,
     {| calls := calls st ++ [(str "wikipedia", immediateQuery topic 1)];
        resources := resources st |}).
Proof.
  intros Ht Hd Hfail. unfold generateImmediateResources, immediateDays.
  destruct (Z.to_nat (Z.min duration 5)) as [|k] eqn:Hk; [lia|].
  cbn [seq List.map forEachM]. unfold bindM at 1.
  change (Z.of_nat 1) with 1. unfold immediateStep. cbv zeta. unfold bindM at 1.
  unfold awaitFetch at 1.
  by rewrite (fetcher_uncaught_illFormed JSON_parse (str "wikipedia") _ _
                (immediateQuery_illFormed topic 1 Ht) Hfail).
Qed.

End ImmediateSurrogate.

(** C9, an instance: the topic is one unpaired high surrogate, the
    duration 30, and every lookup times out. *)
Lemma immediate_path_halts_on_surrogate_witness :
  generateImmediateResources parseNothing allTimedOut loneSurrogate 30 initial
  = (Halted URIError,
     {| calls := [(str "wikipedia", immediateQuery loneSurrogate 1)]; resources := [] |}).
Proof.
  apply (immediate_path_halts_on_surrogate parseNothing allTimedOut loneSurrogate 30 initial).
  - by vm_compute.
  - lia.
  - done.
Defined.

(** ** Day Aggregator and orchestrator: runs with failing lookups *)

Section FailingLookups.

(** C1. One lookup of the unit (day 1, wikipedia) answers with a real
    item, the other seven time out. The record stored for the unit holds
    five items: the real one, followed by four items made up by the
    fallback synthesizer (metadata [type: 'fallback_search']), each of
    which the filter let through. *)
Theorem persisted_record_mixes_fallback :
  ∃ record,
    head (resources
            (fetchResourcesForPlan parseRealItem firstAnswers (str "plan-1") rustPlan
               initial).2)
    = Some record
    ∧ (r_day record, r_source record) = (1, str "wikipedia")
    ∧ List.map isFallbackItem (r_data record) = [false; true; true; true; true]
    ∧ List.map isRealResource (r_data record)
      = [Normal true; Normal true; Normal true; Normal true; Normal true]
    ∧ head (r_data record) = Some realItem
    ∧ Normal (take 1 (drop 1 (r_data record)))
      = generateFallbackResults (str "wikipedia")
          (str "rust ownership Intro to ownership tutorial").
Proof.
  eexists. split; [by vm_compute|]. split_and!; by vm_compute.
Qed.

(** C2. Every lookup of the plan times out: 32 lookups, 8 per (day,
    source) unit. For each of the four units a record is stored all the
    same, made of five synthesized fallback items. *)
Theorem all_lookups_fail_records_stored :
  List.map (λ record, (r_day record, r_source record, length (r_data record)))
    (resources
       (fetchResourcesForPlan parseNothing allTimedOut (str "plan-1") rustPlan initial).2)
  = [ (1, str "wikipedia", 5%nat); (1, str "youtube", 5%nat);
      (1, str "reddit", 5%nat); (1, str "medium", 5%nat) ]
  ∧ Forall (λ record, Forall (λ item, isFallbackItem item = true) (r_data record))
      (resources
         (fetchResourcesForPlan parseNothing allTimedOut (str "plan-1") rustPlan
            initial).2)
  ∧ length
      (calls
         (fetchResourcesForPlan parseNothing allTimedOut (str "plan-1") rustPlan
            initial).2)
    = 32%nat.
Proof.
  split_and!; [by vm_compute | | by vm_compute].
  vm_compute. repeat constructor.
Qed.

End FailingLookups.

(** ** Day Aggregator: what a stored record looks like *)

Section AggregatorFacts.
Implicit Types (r x resource : JsVal) (l pre suf all : list JsVal).

(** The filter keeps an item only if it is an object that answers the
    three tests. *)
Lemma isRealResource_kept r :
  isRealResource r = Normal true →
  storableItem r ∧ ∃ props, r = JObj props.
Proof.
  unfold isRealResource, storableItem, fallbackFlag, titleOf, urlOf.
  destruct r as [| |b|n|s|elems|props]; try done.
  cbn [getProp bindC].
  set (md := lookupProp (str "metadata") props).
  set (t := lookupProp (str "title") props).
  set (u := lookupProp (str "url") props).
  intros H. split; [|by eexists].
  assert (Hfb : ∃ f, (if isNullish md then Normal JUndefined
                      else getProp md (str "fallback")) = Normal f
                     ∧ (if isNullish md then JUndefined
                        else match getProp md (str "fallback") with
                             | Normal f => f | Throw _ => JUndefined end) = f).
  { destruct md; simpl; eauto. }
  destruct Hfb as (f & Hf1 & Hf2). rewrite Hf1 in H. rewrite Hf2. cbn [bindC] in H.
  destruct (truthy f); [done|]. split; [done|].
  destruct (strictEquals t (JStr SORRY)) eqn:Ht; [done|].
  split.
  { intros E. rewrite E in Ht. cbn [strictEquals] in Ht.
    by rewrite bool_decide_eq_true_2 in Ht. }
  destruct (truthy u) eqn:Hu; [|done]. cbn [negb] in H.
  destruct u as [| | | |us| |]; try done. cbn [callTrim bindC strictEquals] in H.
  exists us. split; [done|]. rewrite <- trim_nil. intros E. by rewrite E in H.
Qed.

Lemma filterC_kept {A} (p : A → Completion bool) (l v : list A) :
  filterC p l = Normal v → Forall (λ a : A, p a = Normal true) v.
Proof.
  revert v. induction l as [|a l IH]; intros v; simpl; [by intros [= <-]|].
  destruct (p a) as [[]|] eqn:Hp; [| |done]; cbn [bindC];
    destruct (filterC p l) as [v'|]; try done; cbn [bindC]; intros [= <-]; auto.
Qed.



Lemma keyed_urlOf r : keyed r → urlOf r = JStr (urlKey r).
Proof. intros (props & u & _ & H). unfold urlKey. by rewrite H. Qed.

Lemma keyed_urls l : Forall keyed l → urlOf <$> l = JStr <$> (urlKey <$> l).
Proof.
  induction 1 as [|r l Hr Hl IH]; [done|].
  rewrite !fmap_cons, IH. f_equal. by apply keyed_urlOf.
Qed.

Lemma kept_keyed r : isRealResource r = Normal true → keyed r.
Proof.
  intros H. apply isRealResource_kept in H as [(_ & _ & u & Hu & _) [props ->]].
  by exists props, u.
Qed.

Lemma sameUrl_keyed resource r :
  keyed resource → keyed r →
  sameUrl resource r = Normal (bool_decide (urlKey r = urlKey resource)).
Proof.
  intros (p1 & u1 & -> & H1) (p2 & u2 & -> & H2).
  unfold sameUrl, urlKey. unfold urlOf in *. cbn [getProp bindC] in *.
  by rewrite H1, H2.
Qed.

(** [findIndex] stops at the first item with the url looked for. *)
Lemma findIndex_first resource x pre suf (i : Z) :
  keyed resource → Forall keyed pre → keyed x →
  urlKey resource ∉ urlKey <$> pre → urlKey x = urlKey resource →
  findIndexC (sameUrl resource) i (pre ++ x :: suf) = Normal (i + Z.of_nat (length pre)).
Proof.
  intros Hres Hpre Hx. revert i.
  induction Hpre as [|y pre Hy Hpre IH]; intros i Hnot Hsame; simpl.
  - rewrite (sameUrl_keyed resource x Hres Hx), bool_decide_eq_true_2 by done.
    cbn [bindC]. f_equal. lia.
  - rewrite fmap_cons, not_elem_of_cons in Hnot. destruct Hnot as [Hne Hnot].
    rewrite (sameUrl_keyed resource y Hres Hy), bool_decide_eq_false_2 by done.
    cbn [bindC]. rewrite IH by done. f_equal. lia.
Qed.

Lemma findIndex_earlier resource pre rest (i : Z) :
  keyed resource → Forall keyed pre →
  urlKey resource ∈ urlKey <$> pre →
  ∃ j, findIndexC (sameUrl resource) i (pre ++ rest) = Normal j
       ∧ i ≤ j < i + Z.of_nat (length pre).
Proof.
  intros Hres Hpre. revert i.
  induction Hpre as [|y pre Hy Hpre IH]; intros i Hin; simpl.
  - by apply elem_of_nil in Hin.
  - rewrite (sameUrl_keyed resource y Hres Hy). cbn [bindC].
    case_bool_decide as Hb.
    + exists i. split; [done | lia].
    + rewrite fmap_cons, elem_of_cons in Hin. destruct Hin as [Hin | Hin]; [done|].
      destruct (IH (i + 1) Hin) as (j & -> & Hj). exists j. split; [done | lia].
Qed.

(** The deduplicating filter, from position [length pre] on: it keeps an
    item exactly when no earlier item has its url. *)
Lemma firsts_from pre suf :
  Forall keyed (pre ++ suf) →
  ∃ out,
    filterIndexC
      (λ resource index,
         (i <- findIndexC (sameUrl resource) 0 (pre ++ suf) ;
          Normal (index =? i))%C)
      (Z.of_nat (length pre)) suf
    = Normal out
    ∧ out `sublist_of` suf
    ∧ NoDup (urlKey <$> out)
    ∧ ∀ y, y ∈ out → urlKey y ∉ urlKey <$> pre.
Proof.
  revert pre. induction suf as [|x suf IH]; intros pre Hall.
  - exists []. split_and!; [done | done | constructor | by intros y Hy%elem_of_nil].
  - apply Forall_app in Hall as Hsplit. destruct Hsplit as [Hpre Hsuf].
    apply Forall_cons in Hsuf as [Hx Hsuf].
    destruct (IH (pre ++ [x])) as (out & Hout & Hsub & Hnd & Hfresh).
    { by rewrite <- app_assoc. }
    rewrite <- app_assoc in Hout. simpl in Hout.
    rewrite length_app in Hout. simpl in Hout.
    replace (Z.of_nat (length pre + 1)) with (Z.of_nat (length pre) + 1) in Hout by lia.
    cbn [filterIndexC].
    destruct (decide (urlKey x ∈ urlKey <$> pre)) as [Hdup | Hnew].
    + destruct (findIndex_earlier x pre (x :: suf) 0 Hx Hpre Hdup) as (j & -> & Hj).
      cbn [bindC]. rewrite Hout. cbn [bindC].
      replace (Z.of_nat (length pre) =? j) with false by (symmetry; apply Z.eqb_neq; lia).
      exists out. split_and!; [done | by apply sublist_cons | done |].
      intros y Hy Hin. apply (Hfresh y Hy).
      rewrite fmap_app. apply elem_of_app. by left.
    + rewrite (findIndex_first x x pre suf 0) by done.
      cbn [bindC]. rewrite Hout. cbn [bindC].
      replace (Z.of_nat (length pre) =? 0 + Z.of_nat (length pre)) with true by (symmetry; apply Z.eqb_eq; lia).
      exists (x :: out). split_and!; [done | by apply sublist_skip | |].
      * rewrite fmap_cons. apply NoDup_cons. split; [|done].
        intros Hin. apply list_elem_of_fmap in Hin as (y & Hy & Hyin).
        apply (Hfresh y Hyin). rewrite fmap_app, <- Hy.
        apply elem_of_app. right. set_solver.
      * intros y Hy. apply elem_of_cons in Hy as [-> | Hy]; [done|].
        intros Hin. apply (Hfresh y Hy). rewrite fmap_app. apply elem_of_app. by left.
Qed.

Lemma Forall_sublist_of {A} (P : A → Prop) (l1 l2 : list A) :
  l1 `sublist_of` l2 → Forall P l2 → Forall P l1.
Proof.
  intros Hsub Hl2. apply Forall_forall. intros a Ha.
  rewrite Forall_forall in Hl2. apply Hl2. by eapply elem_of_sublist.
Qed.

(** "Remove duplicates and limit results": at most five of the items, in
    their order, with pairwise different urls. *)
Lemma uniqueResources_spec all :
  Forall keyed all →
  ∃ unique,
    uniqueResources all = Normal unique
    ∧ unique `sublist_of` all
    ∧ (length unique ≤ 5)%nat
    ∧ NoDup (urlOf <$> unique).
Proof.
  intros Hall. destruct (firsts_from [] all Hall) as (out & Hout & Hsub & Hnd & _).
  change (Z.of_nat (length (@nil JsVal))) with 0 in Hout.
  change ([] ++ all) with all in Hout. exists (take 5 out). unfold uniqueResources. rewrite Hout.
  cbn [bindC]. unfold slice0. split_and!.
  - done.
  - etrans; [apply sublist_take | done].
  - rewrite length_take. lia.
  - rewrite keyed_urls.
    + assert (Inj (=) (=) JStr) by (by intros a b [= ->]).
      apply (NoDup_fmap_2 _). rewrite fmap_take. by apply NoDup_take_of.
    + apply (Forall_sublist_of _ _ all); [|done].
      etrans; [apply sublist_take | done].
Qed.

End AggregatorFacts.

(** ** Orchestrator: every record it stores *)

Section OrchestratorFacts.
Variable JSON_parse : jsstring -> Completion JsVal.
Variable lookup : nat -> jsstring -> jsstring -> Outcome.
Implicit Types (st : State) (source query planId : jsstring).

Lemma grows_refl st : grows st st.
Proof. exists []. by rewrite app_nil_r. Qed.

Lemma grows_trans st1 st2 st3 : grows st1 st2 → grows st2 st3 → grows st1 st3.
Proof.
  intros (a1 & H1 & Ha1) (a2 & H2 & Ha2). exists (a1 ++ a2).
  split; [by rewrite H2, H1, app_assoc | by apply Forall_app].
Qed.

(** A loop keeps what each pass of its body keeps. *)
Lemma forEachM_inv {A B} (I : B → Prop) (body : B → A → M B) (xs : list A) :
  (∀ acc x st r st', I acc → body acc x st = (r, st') →
     grows st st' ∧ ∀ acc', r = Done acc' → I acc') →
  ∀ acc st r st', I acc → forEachM body xs acc st = (r, st') →
     grows st st' ∧ ∀ acc', r = Done acc' → I acc'.
Proof.
  intros Hbody. induction xs as [|x xs IH]; intros acc st r st' Hacc; simpl.
  - intros [= <- <-]. split; [apply grows_refl | by intros acc' [= <-]].
  - unfold bindM. destruct (body acc x st) as [[acc1|e] st1] eqn:Hb.
    + destruct (Hbody _ _ _ _ _ Hacc Hb) as [Hg1 Hi1]. intros Hrest.
      destruct (IH _ _ _ _ (Hi1 _ eq_refl) Hrest) as [Hg2 Hi2].
      split; [by eapply grows_trans | done].
    + destruct (Hbody _ _ _ _ _ Hacc Hb) as [Hg1 _]. intros [= <- <-].
      split; [done | by intros acc' [=]].
Qed.

Lemma queryStep_inv source all query st r st' :
  Forall (λ x, isRealResource x = Normal true) all →
  queryStep JSON_parse lookup source all query st = (r, st') →
  grows st st'
  ∧ ∀ all', r = Done all' → Forall (λ x, isRealResource x = Normal true) all'.
Proof.
  intros Hall. unfold queryStep, bindM.
  destruct (awaitFetch JSON_parse lookup source query st) as [[fetched|e] st1] eqn:Hf;
    apply awaitFetch_calls in Hf as [_ Hres].
  - unfold ret. intros [= <- <-]. split.
    + exists []. by rewrite app_nil_r.
    + intros all' [= <-]. destruct (0 <? length fetched)%nat; [|done].
      destruct (filterC isRealResource fetched) as [valid|] eqn:Hv; [|done].
      apply Forall_app. split; [done | by eapply filterC_kept].
  - intros [= <- <-]. split; [|by intros all' [=]].
    exists []. by rewrite app_nil_r.
Qed.

Lemma sourceStep_inv planId planStructure dayNumber searchQueries u source st r st' :
  sourceStep JSON_parse lookup planId planStructure dayNumber searchQueries u source st
  = (r, st') →
  grows st st' ∧ ∀ u', r = Done u' → True.
Proof.
  unfold sourceStep. cbv zeta. unfold bindM at 1.
  destruct (forEachM _ _ _ st) as [[all|e] st1] eqn:Hloop.
  - eapply (forEachM_inv (λ all, Forall (λ x, isRealResource x = Normal true) all))
      in Hloop as [Hg Hall]; [| by intros; eapply queryStep_inv | done].
    specialize (Hall all eq_refl).
    assert (Hkeyed : Forall keyed all).
    { eapply Forall_impl; [exact Hall | apply kept_keyed]. }
    destruct (uniqueResources_spec all Hkeyed) as (unique & -> & Hsub & Hlen & Hnd).
    destruct (0 <? length unique)%nat eqn:Hpos.
    + unfold addResource. intros [= <- <-]. split; [|done].
      eapply grows_trans; [done|]. eexists [_]. split; [done|].
      constructor; [|done]. unfold storableRecord. cbn [r_data].
      apply Nat.ltb_lt in Hpos. split_and!; [lia | lia | | done].
      apply (Forall_sublist_of _ _ all Hsub).
      eapply Forall_impl; [exact Hall|].
      intros x Hx. by apply isRealResource_kept in Hx as [? _].
    + unfold ret. by intros [= <- <-].
  - eapply (forEachM_inv (λ all, Forall (λ x, isRealResource x = Normal true) all))
      in Hloop as [Hg _]; [| by intros; eapply queryStep_inv | done].
    by intros [= <- <-].
Qed.

Lemma dayStep_inv planId planStructure u d st r st' :
  dayStep JSON_parse lookup planId planStructure u d st = (r, st') →
  grows st st' ∧ ∀ u', r = Done u' → True.
Proof.
  unfold dayStep. cbv zeta. apply (forEachM_inv (λ _, True)); [|done].
  intros; by eapply sourceStep_inv.
Qed.

(** Whatever the lookups do, every record the orchestrator adds to the
    store holds between one and five items; each has a falsy
    [metadata.fallback], a title other than the sentinel and a url that is
    a string with something else than white space in it; and no two have
    the same url. *)
Theorem stored_records_storable planId planStructure st :
  ∃ added,
    resources (fetchResourcesForPlan JSON_parse lookup planId planStructure st).2
    = resources st ++ added
    ∧ Forall storableRecord added.
Proof.
  destruct (fetchResourcesForPlan JSON_parse lookup planId planStructure st)
    as [r st'] eqn:Hrun.
  unfold fetchResourcesForPlan in Hrun.
  eapply (forEachM_inv (λ _, True)) in Hrun as [Hg _]; [done | | done].
  intros; by eapply dayStep_inv.
Qed.

End OrchestratorFacts.

(** ** Orchestrator: when every lookup fails *)

Section AllLookupsFail.
Variable JSON_parse : jsstring -> Completion JsVal.
Variable lookup : nat -> jsstring -> jsstring -> Outcome.
Implicit Types (st : State) (source query planId t : jsstring).
Implicit Types (planStructure : LearningPlanStructure) (d : DayPlan).

(** No lookup of the run gives real results. *)
Hypothesis lookups_fail : ∀ i source query, realResults JSON_parse (lookup i source query) = None.

Lemma awaitFetch_fail source query st :
  source ∈ sources → wellFormed query = true →
  ∃ item,
    awaitFetch JSON_parse lookup source query st
    = (Done [item],
       {| calls := calls st ++ [(source, query)]; resources := resources st |})
    ∧ synthesized item.
Proof.
  intros Hs Hq. destruct (generateFallbackResults_ok source query Hs Hq) as (c & Hg & Hp).
  exists (fallbackItem source c). split; [|split; [apply fallbackItem_isFallback | done]].
  unfold awaitFetch. rewrite fetch_cases, lookups_fail. unfold resolveFallback.
  by rewrite Hg.
Qed.

Lemma queryStep_fail source all query st :
  source ∈ sources → wellFormed query = true →
  ∃ item,
    queryStep JSON_parse lookup source all query st
    = (Done (all ++ [item]),
       {| calls := calls st ++ [(source, query)]; resources := resources st |})
    ∧ synthesized item.
Proof.
  intros Hs Hq. destruct (awaitFetch_fail source query st Hs Hq) as (item & Hf & Hi).
  exists item. split; [|done]. unfold queryStep, bindM. rewrite Hf.
  destruct Hi as [_ Hreal]. unfold ret. cbn [length Nat.ltb Nat.leb filterC].
  by rewrite Hreal.
Qed.

Lemma queryLoop_fail source (queries : list jsstring) all st :
  source ∈ sources → Forall (λ q, wellFormed q = true) queries →
  ∃ items,
    forEachM (queryStep JSON_parse lookup source) queries all st
    = (Done (all ++ items),
       {| calls := calls st ++ ((λ q, (source, q)) <$> queries);
          resources := resources st |})
    ∧ length items = length queries
    ∧ Forall synthesized items.
Proof.
  intros Hs Hqs. revert all st.
  induction Hqs as [|q queries Hq Hqs IH]; intros all st.
  - exists []. simpl. unfold ret. rewrite !app_nil_r. by destruct st.
  - destruct (queryStep_fail source all q st Hs Hq) as (item & Hstep & Hi).
    destruct (IH (all ++ [item])
                {| calls := calls st ++ [(source, q)]; resources := resources st |})
      as (items & Hloop & Hlen & His).
    exists (item :: items). cbn [forEachM]. unfold bindM at 1. rewrite Hstep, Hloop.
    cbn [calls resources]. rewrite <- !app_assoc. simpl.
    split_and!; [done | by rewrite Hlen | by constructor].
Qed.


Lemma synthesized_keyed r : synthesized r → keyed r.
Proof. intros [_ H]. by apply kept_keyed. Qed.

(** The first item of the list is always among the unique ones. *)
Lemma uniqueResources_head (x : JsVal) (all : list JsVal) :
  Forall keyed (x :: all) →
  ∃ rest, uniqueResources (x :: all) = Normal (x :: rest)
          ∧ rest `sublist_of` all.
Proof.
  intros Hall. pose proof Hall as Hx. apply Forall_cons in Hx as [Hx _].
  destruct (firsts_from [x] all Hall) as (out & Hout & Hsub & _).
  assert (Hfi : findIndexC (sameUrl x) 0 (x :: all) = Normal 0).
  { apply (findIndex_first x x [] all 0); try done; try constructor.
    all: try apply not_elem_of_nil. }
  unfold uniqueResources. cbn [filterIndexC]. rewrite Hfi. cbn [bindC]. change ([x] ++ all) with (x :: all) in Hout.
  change (Z.of_nat (length [x])) with (0 + 1) in Hout. rewrite Hout.
  cbn [bindC]. exists (take 4 out). split; [done|].
  etrans; [apply sublist_take | done].
Qed.

Lemma wf_app a b : wfString a → wfString b → wfString (a ++ b).
Proof. apply wellFormed_app. Qed.

Lemma wf_str (lit : string) : wfString (str lit).
Proof. apply wellFormed_str. Qed.

Lemma emitted_wellFormed planStructure d :
  wfString (topic planStructure) → wfString (title d) → wfString (phaseOf d) →
  Forall wfString (microTopicsOf d) →
  Forall wfString (emittedQueries planStructure d).
Proof.
  intros Ht Hti Hph Hms. rewrite emittedQueries_blocks.
  repeat apply Forall_app_2.
  - unfold primaryQueries. repeat constructor; repeat apply wf_app; auto using wf_str.
  - unfold phaseQueries. repeat case_bool_decide;
      repeat constructor; repeat apply wf_app; auto using wf_str.
  - induction Hms as [|m ms Hm Hms IH]; [constructor|]. simpl.
    repeat constructor; try done; repeat apply wf_app; auto using wf_str.
  - unfold documentationQueries.
    repeat constructor; repeat apply wf_app; auto using wf_str.
Qed.

Lemma sourceQueries_wellFormed source t : wfString t → Forall wfString (sourceQueries source t).
Proof.
  intros Ht. unfold sourceQueries.
  repeat case_bool_decide; repeat constructor; repeat apply wf_app; auto using wf_str.
Qed.

Lemma optimized_wellFormed planStructure d source :
  wfString (topic planStructure) → wfString (title d) → wfString (phaseOf d) →
  Forall wfString (microTopicsOf d) →
  Forall wfString (optimizeQueriesForSource source
               (generateComprehensiveSearchQueries planStructure d)
               (topic planStructure)).
Proof.
  intros Ht Hti Hph Hms. rewrite optimizer_unfold, synthesizer_unfold.
  apply Forall_take. eapply Forall_sublist_of; [apply dedup_sublist|].
  apply Forall_app_2; [|by apply sourceQueries_wellFormed].
  apply Forall_take. eapply Forall_sublist_of; [apply dedup_sublist|].
  by apply emitted_wellFormed.
Qed.

Lemma optimized_nonempty planStructure d source :
  optimizeQueriesForSource source
    (generateComprehensiveSearchQueries planStructure d) (topic planStructure) ≠ [].
Proof.
  rewrite optimizer_unfold.
  pose proof (synthesizer_head planStructure d) as Hhead.
  destruct (generateComprehensiveSearchQueries planStructure d) as [|q base]; [done|].
  done.
Qed.


Lemma sourceStep_fail planId planStructure d u source st :
  wfDay planStructure d → source ∈ sources →
  ∃ record st',
    sourceStep JSON_parse lookup planId planStructure (day d)
      (generateComprehensiveSearchQueries planStructure d) u source st
    = (Done tt, st')
    ∧ resources st' = resources st ++ [record]
    ∧ fallbackRecord (day d) source record.
Proof.
  intros (Ht & Hti & Hph & Hms) Hs. unfold sourceStep. cbv zeta.
  pose proof (optimized_wellFormed planStructure d source Ht Hti Hph Hms) as Hwf.
  pose proof (optimized_nonempty planStructure d source) as Hne.
  destruct (queryLoop_fail source _ [] st Hs Hwf) as (items & Hloop & Hlen & His).
  unfold bindM at 1. rewrite Hloop. cbn [app].
  destruct items as [|x items].
  { destruct (optimizeQueriesForSource _ _ _); [done | discriminate Hlen]. }
  assert (Hkeyed : Forall keyed (x :: items)).
  { eapply Forall_impl; [exact His | apply synthesized_keyed]. }
  destruct (uniqueResources_head x items Hkeyed) as (rest & -> & Hsub).
  cbn [length Nat.ltb Nat.leb]. unfold addResource. cbn [calls resources].
  eexists _, _. split; [done|]. split; [done|].
  unfold fallbackRecord. cbn [r_day r_source r_data]. split_and!; try done.
  apply Forall_cons in His as [[Hx _] His]. constructor; [done|].
  apply (Forall_sublist_of _ _ items Hsub).
  eapply Forall_impl; [exact His | by intros r [? _]].
Qed.

Lemma dayStep_fail planId planStructure u d st :
  wfDay planStructure d →
  ∃ added st',
    dayStep JSON_parse lookup planId planStructure u d st = (Done tt, st')
    ∧ resources st' = resources st ++ added
    ∧ Forall2 (fallbackRecord (day d)) sources added.
Proof.
  intros Hd. unfold dayStep. cbv zeta. unfold sources. cbn [forEachM].
  unfold bindM.
  destruct (sourceStep_fail planId planStructure d tt (str "wikipedia") st Hd)
    as (r1 & st1 & -> & Hr1 & Hf1); [set_solver|].
  destruct (sourceStep_fail planId planStructure d tt (str "youtube") st1 Hd)
    as (r2 & st2 & -> & Hr2 & Hf2); [set_solver|].
  destruct (sourceStep_fail planId planStructure d tt (str "reddit") st2 Hd)
    as (r3 & st3 & -> & Hr3 & Hf3); [set_solver|].
  destruct (sourceStep_fail planId planStructure d tt (str "medium") st3 Hd)
    as (r4 & st4 & -> & Hr4 & Hf4); [set_solver|].
  exists [r1; r2; r3; r4], st4. split; [done|]. split.
  - rewrite Hr4, Hr3, Hr2, Hr1. by rewrite <- !app_assoc.
  - do 4 (constructor; [assumption|]). constructor.
Qed.

(** When no lookup gives real results and the strings of the plan hold no
    unpaired surrogate, the orchestrator stores, for every day and each of
    the four sources in turn, a record made of synthesized fallback items. *)
Theorem failing_lookups_store_fallbacks planId planStructure st :
  Forall (wfDay planStructure) (default [] (days planStructure)) →
  ∃ added,
    resources (fetchResourcesForPlan JSON_parse lookup planId planStructure st).2
    = resources st ++ concat added
    ∧ Forall2 (λ d records, Forall2 (fallbackRecord (day d)) sources records)
        (default [] (days planStructure)) added.
Proof.
  unfold fetchResourcesForPlan. intros Hdays. revert st.
  induction Hdays as [|d ds Hd Hds IH]; intros st.
  - exists []. simpl. by rewrite app_nil_r.
  - destruct (dayStep_fail planId planStructure tt d st Hd) as (a1 & st1 & Hstep & Hr1 & Hf1).
    destruct (IH st1) as (added & Hres & Hf).
    exists (a1 :: added). cbn [forEachM]. unfold bindM at 1. rewrite Hstep.
    rewrite Hres, Hr1. simpl. rewrite <- app_assoc. split; [done | by constructor].
Qed.

End AllLookupsFail.

(** An instance: the one-day plan of the example with every lookup timing
    out. *)
Lemma failing_lookups_store_fallbacks_witness :
  ∃ added,
    resources (fetchResourcesForPlan parseNothing allTimedOut (str "plan-1") rustPlan
                 initial).2
    = resources initial ++ concat added
    ∧ Forall2 (λ d records, Forall2 (fallbackRecord (day d)) sources records)
        (default [] (days rustPlan)) added.
Proof.
  apply (failing_lookups_store_fallbacks parseNothing allTimedOut); [done|].
  constructor; [|constructor]. unfold wfDay, wfString.
  split_and!; try by vm_compute. repeat constructor.
Defined.

(** ** Further properties of the pipeline *)

(** On a query without unpaired surrogate, for each of the four sources
    and whatever the child process does, the fetcher resolves with a
    non-empty list, which is the synthesized fallback whenever there are no
    real results. *)
Theorem fetcher_total_on_wellFormed (JSON_parse : jsstring → Completion JsVal)
    (source query : jsstring) (o : Outcome) :
  source ∈ sources → wellFormed query = true →
  ∃ items,
    fetchResourcesFromSource JSON_parse source query o = Resolved items
    ∧ items ≠ []
    ∧ (realResults JSON_parse o = None →
         generateFallbackResults source query = Normal items).
Proof. apply fetcher_resolves_wellFormed. Qed.

(** An instance: reddit, a failed spawn. *)
Lemma fetcher_total_on_wellFormed_witness :
  ∃ items,
    fetchResourcesFromSource parseNothing (str "reddit") (str "rust ownership") SpawnFailed
    = Resolved items
    ∧ items ≠ []
    ∧ (realResults parseNothing SpawnFailed = None →
         generateFallbackResults (str "reddit") (str "rust ownership") = Normal items).
Proof.
  apply (fetcher_total_on_wellFormed parseNothing (str "reddit") (str "rust ownership")
           SpawnFailed).
  - apply (bool_decide_unpack _). by vm_compute.
  - by vm_compute.
Defined.

(** Once the base list holds 8 distinct queries, the optimizer returns
    its first 8 for every source: none of the queries it appends is
    returned. *)
Theorem optimizer_cap_drops_additions (source : jsstring) (base : list jsstring)
    (t : jsstring) :
  NoDup base → (8 ≤ length base)%nat →
  optimizeQueriesForSource source base t = take 8 base.
Proof. apply optimizer_additions_cut. Qed.

(** An instance: youtube on the twelve queries of the example. *)
Lemma optimizer_cap_drops_additions_witness :
  optimizeQueriesForSource (str "youtube")
    (generateComprehensiveSearchQueries rustPlan rustDay1) (topic rustPlan)
  = take 8 (generateComprehensiveSearchQueries rustPlan rustDay1).
Proof.
  apply (optimizer_cap_drops_additions (str "youtube")
           (generateComprehensiveSearchQueries rustPlan rustDay1) (topic rustPlan)).
  - apply (bool_decide_unpack _). by vm_compute.
  - vm_compute. lia.
Defined.

(** For each of the four sources and every query without unpaired
    surrogate, the one item the fallback synthesizer returns passes the
    aggregator's filter. *)
Theorem fallback_passes_aggregator_filter (source query : jsstring) :
  source ∈ sources → wellFormed query = true →
  ∃ content,
    generateFallbackResults source query = Normal [fallbackItem source content]
    ∧ isRealResource (fallbackItem source content) = Normal true.
Proof. apply generateFallbackResults_ok. Qed.

(** An instance: medium, ["borrowing explained"]. *)
Lemma fallback_passes_aggregator_filter_witness :
  ∃ content,
    generateFallbackResults (str "medium") (str "borrowing explained")
    = Normal [fallbackItem (str "medium") content]
    ∧ isRealResource (fallbackItem (str "medium") content) = Normal true.
Proof.
  apply (fallback_passes_aggregator_filter (str "medium") (str "borrowing explained")).
  - apply (bool_decide_unpack _). by vm_compute.
  - by vm_compute.
Defined.

(* ===================================================================== *)
(** ** Curriculum fallback                                               *)
(* ===================================================================== *)

Section CurriculumFacts.
Implicit Types (topic : jsstring) (duration dayNumber : Z) (index : nat).

Lemma phase_bounds duration :
  0 ≤ duration → 0 ≤ beginnerEnd duration ≤ intermediateEnd duration
                 ∧ intermediateEnd duration ≤ duration.
Proof.
  intros Hd. unfold beginnerEnd, intermediateEnd.
  pose proof (Z.div_mod duration 3 ltac:(lia)).
  pose proof (Z.mod_pos_bound duration 3 ltac:(lia)).
  pose proof (Z.div_mod (duration * 2) 3 ltac:(lia)).
  pose proof (Z.mod_pos_bound (duration * 2) 3 ltac:(lia)).
  lia.
Qed.

Lemma phaseFor_cases duration dayNumber :
  phaseFor duration dayNumber = str "beginner" ∧ dayNumber ≤ beginnerEnd duration
                                ∧ dayNumber ≤ intermediateEnd duration
  ∨ phaseFor duration dayNumber = str "intermediate"
    ∧ beginnerEnd duration < dayNumber ≤ intermediateEnd duration
  ∨ phaseFor duration dayNumber = str "advanced" ∧ intermediateEnd duration < dayNumber.
Proof.
  unfold phaseFor.
  destruct (Z.ltb_spec (intermediateEnd duration) dayNumber); [by right; right|].
  destruct (Z.ltb_spec (beginnerEnd duration) dayNumber); [right; left|left]; done.
Qed.

Lemma fallbackDays_index topic duration (ds : list DayPlan) d :
  ds = List.map (fallbackDay topic duration) (seq 0 (Z.to_nat duration)) →
  d ∈ ds → ∃ index, d = fallbackDay topic duration index ∧ 1 ≤ day d ≤ duration.
Proof.
  intros -> Hd. apply list_elem_of_In, in_map_iff in Hd as (index & <- & Hin).
  apply in_seq in Hin. exists index. split; [done|]. cbn [fallbackDay day]. lia.
Qed.

Lemma fallbackDays_numbers topic duration :
  day <$> List.map (fallbackDay topic duration) (seq 0 (Z.to_nat duration))
  = Z.of_nat <$> seq 1 (Z.to_nat duration).
Proof.
  generalize (Z.to_nat duration) as n. intros n.
  change 1%nat with (S 0). generalize 0%nat as s.
  induction n as [|n IH]; intros s; [done|].
  cbn [seq List.map]. rewrite fmap_cons, (IH (S s)), fmap_cons.
  f_equal. cbn [fallbackDay day]. lia.
Qed.

(** The days of the fallback plan are numbered 1, ..., duration in this
    order, and the number of each lies in the range that the plan's
    [phases] table gives for the day's phase. *)
Theorem fallback_plan_days_in_phase_range topic duration :
  let plan := generateFallbackPlan topic duration in
  let ds := default [] (days (g_structure plan)) in
  day <$> ds = Z.of_nat <$> seq 1 (Z.to_nat duration)
  ∧ Forall (λ d, ∃ r, rangeOf (g_phases plan) (phaseOf d) = Some r
                      ∧ range_start r ≤ day d ≤ range_end r) ds.
Proof.
  cbv zeta. cbn [generateFallbackPlan g_structure g_phases days from_option id]. split.
  - apply fallbackDays_numbers.
  - apply Forall_forall. intros d Hd.
    destruct (fallbackDays_index topic duration _ d eq_refl Hd) as (index & -> & Hday).
    cbn [fallbackDay day] in *. unfold phaseOf. cbn [fallbackDay phase].
    assert (0 ≤ duration) as Hdur by lia.
    pose proof (phase_bounds duration Hdur) as Hb.
    destruct (phaseFor_cases duration (Z.of_nat index + 1))
      as [(-> & H1 & H2)|[(-> & H1)|(-> & H1)]].
    + exists (beginner (phaseTable duration)). split; [reflexivity|]. cbn. lia.
    + exists (intermediate (phaseTable duration)). split; [reflexivity|]. cbn. lia.
    + exists (advanced (phaseTable duration)). split; [reflexivity|]. cbn. lia.
Qed.

(** The plan view reads the phase of a day off the [phases] table
    ([getPhase]); on the fallback plan this is, for every day, the phase
    the server wrote into the day. *)
Theorem client_phase_matches_fallback_plan topic duration :
  let plan := generateFallbackPlan topic duration in
  Forall (λ d, phase d = Some (getPhase (Some (g_phases plan)) (day d)))
         (default [] (days (g_structure plan))).
Proof.
  cbv zeta. cbn [generateFallbackPlan g_structure g_phases days from_option id].
  apply Forall_forall. intros d Hd.
  destruct (fallbackDays_index topic duration _ d eq_refl Hd) as (index & -> & Hday).
  cbn [fallbackDay day phase] in *.
  pose proof (phase_bounds duration ltac:(lia)) as Hb.
  unfold getPhase, phaseTable. cbn [beginner intermediate range_end].
  destruct (phaseFor_cases duration (Z.of_nat index + 1))
    as [(-> & H1 & H2)|[(-> & H1)|(-> & H1)]].
  - by rewrite (proj2 (Z.leb_le _ _) H1).
  - rewrite (proj2 (Z.leb_gt _ _)) by lia. by rewrite (proj2 (Z.leb_le _ _)) by lia.
  - rewrite (proj2 (Z.leb_gt _ _)) by lia. by rewrite (proj2 (Z.leb_gt _ _)) by lia.
Qed.

Lemma withPhase_snoc (ph : string) (ds : list DayPlan) (d : DayPlan) :
  withPhase ph (ds ++ [d])
  = withPhase ph ds ++ (if bool_decide (phase d = Some (str ph)) then [d] else []).
Proof. unfold withPhase. by rewrite List.filter_app. Qed.

Lemma phase_counts_upto topic duration (m : nat) :
  0 ≤ beginnerEnd duration ≤ intermediateEnd duration →
  let ds := List.map (fallbackDay topic duration) (seq 0 m) in
  Z.of_nat (length (withPhase "beginner" ds)) = Z.min (Z.of_nat m) (beginnerEnd duration)
  ∧ Z.of_nat (length (withPhase "intermediate" ds))
    = Z.min (Z.of_nat m) (intermediateEnd duration) - Z.min (Z.of_nat m) (beginnerEnd duration)
  ∧ Z.of_nat (length (withPhase "advanced" ds))
    = Z.of_nat m - Z.min (Z.of_nat m) (intermediateEnd duration).
Proof.
  intros Hb. cbv zeta. induction m as [|m (IH1 & IH2 & IH3)].
  - cbn. lia.
  - rewrite seq_S, List.map_app. cbn [List.map Nat.add].
    rewrite !withPhase_snoc, !length_app, !Nat2Z.inj_add, IH1, IH2, IH3.
    cbn [fallbackDay phase].
    destruct (phaseFor_cases duration (Z.of_nat m + 1))
      as [(-> & H1 & H2)|[(-> & H1)|(-> & H1)]];
      repeat match goal with
             | |- context [bool_decide ?P] =>
                 let b := eval vm_compute in (bool_decide P) in
                 change (bool_decide P) with b
             end;
      cbn [length]; lia.
Qed.

(** The fallback plan holds [floor(duration / 3)] beginner days,
    [floor(2 * duration / 3) - floor(duration / 3)] intermediate days, and
    advanced days for the rest: a plan of one day is all advanced, and
    only from three days on is there a beginner day. *)
Theorem fallback_plan_phase_counts topic duration :
  let ds := default [] (days (g_structure (generateFallbackPlan topic duration))) in
  length (withPhase "beginner" ds) = Z.to_nat (beginnerEnd duration)
  ∧ length (withPhase "intermediate" ds)
    = Z.to_nat (intermediateEnd duration - beginnerEnd duration)
  ∧ length (withPhase "advanced" ds) = Z.to_nat (duration - intermediateEnd duration).
Proof.
  cbv zeta. cbn [generateFallbackPlan g_structure days from_option id].
  destruct (Z.le_gt_cases 0 duration) as [Hd|Hd].
  - pose proof (phase_bounds duration Hd) as Hb.
    destruct (phase_counts_upto topic duration (Z.to_nat duration) ltac:(lia))
      as (H1 & H2 & H3).
    lia.
  - replace (Z.to_nat duration) with 0%nat by lia. cbn [seq List.map withPhase List.filter length].
    unfold beginnerEnd, intermediateEnd.
    pose proof (Z.div_mod duration 3 ltac:(lia)).
    pose proof (Z.mod_pos_bound duration 3 ltac:(lia)).
    pose proof (Z.div_mod (duration * 2) 3 ltac:(lia)).
    pose proof (Z.mod_pos_bound (duration * 2) 3 ltac:(lia)).
    lia.
Qed.

(** When the topic holds no unpaired surrogate, neither does any string
    of a day of the fallback plan. *)
Lemma fallbackDays_wellFormed topic duration :
  wfString topic →
  Forall (wfDay (g_structure (generateFallbackPlan topic duration)))
         (default [] (days (g_structure (generateFallbackPlan topic duration)))).
Proof.
  intros Ht. cbn [generateFallbackPlan g_structure days from_option id].
  apply Forall_forall. intros d Hd.
  destruct (fallbackDays_index topic duration _ d eq_refl Hd) as (index & -> & _).
  unfold wfDay. split; [exact Ht|]. split; [|split].
  - cbn [fallbackDay title]. unfold numberToString.
    destruct (phaseFor_cases duration (Z.of_nat index + 1))
      as [(-> & _)|[(-> & _)|(-> & _)]]; repeat apply wf_app; auto using wf_str.
  - unfold phaseOf. cbn [fallbackDay phase].
    destruct (phaseFor_cases duration (Z.of_nat index + 1))
      as [(-> & _)|[(-> & _)|(-> & _)]]; by vm_compute.
  - unfold microTopicsOf. cbn [fallbackDay microTopics from_option id]. unfold numberToString.
    repeat constructor; repeat apply wf_app; auto using wf_str.
Qed.

End CurriculumFacts.

(* ===================================================================== *)
(** ** Sorting                                                           *)
(* ===================================================================== *)

Section SortFacts.
Context {A : Type} (key : A → Z) (cmp : A → A → Z).

(** The comparator is the difference of a numeric key. *)
Hypothesis cmp_key : ∀ a b, cmp a b = key a - key b.

Lemma insertSorted_perm x (l : list A) : insertSorted cmp x l ≡ₚ x :: l.
Proof.
  induction l as [|y l IH]; [done|]. cbn [insertSorted].
  destruct (0 <? cmp x y); [|done]. rewrite IH. apply Permutation_swap.
Qed.

Lemma sortWith_perm (l : list A) : sortWith cmp l ≡ₚ l.
Proof.
  induction l as [|x l IH]; [done|]. cbn [sortWith].
  by rewrite insertSorted_perm, IH.
Qed.

Lemma insertSorted_sorted x (l : list A) :
  StronglySorted (λ a b, key a ≤ key b) l →
  StronglySorted (λ a b, key a ≤ key b) (insertSorted cmp x l).
Proof.
  induction 1 as [|y l Hl IH Hy]; cbn [insertSorted].
  - repeat constructor.
  - destruct (Z.ltb_spec 0 (cmp x y)) as [Hlt|Hle]; rewrite cmp_key in *.
    + constructor; [done|]. rewrite insertSorted_perm. constructor; [lia | done].
    + constructor; [by constructor|]. constructor; [lia|].
      eapply Forall_impl; [exact Hy|]. intros b Hb. cbn in Hb. lia.
Qed.

Lemma sortWith_sorted (l : list A) :
  StronglySorted (λ a b, key a ≤ key b) (sortWith cmp l).
Proof.
  induction l as [|x l IH]; cbn [sortWith]; [constructor | by apply insertSorted_sorted].
Qed.

(** The sort is stable: elements of one key keep their order. *)
Lemma insertSorted_filter (P : A → bool) x (l : list A) :
  (∀ a b, P a = true → P b = true → key a = key b) →
  List.filter P (insertSorted cmp x l) = List.filter P (x :: l).
Proof.
  intros HP. induction l as [|y l IH]; [done|]. cbn [insertSorted].
  destruct (Z.ltb_spec 0 (cmp x y)) as [Hlt|Hle]; [|done].
  rewrite cmp_key in Hlt. cbn [List.filter] in *. rewrite IH.
  destruct (P x) eqn:Hx, (P y) eqn:Hy; try done.
  specialize (HP x y Hx Hy). lia.
Qed.

Lemma sortWith_stable (P : A → bool) (l : list A) :
  (∀ a b, P a = true → P b = true → key a = key b) →
  List.filter P (sortWith cmp l) = List.filter P l.
Proof.
  intros HP. induction l as [|x l IH]; [done|]. cbn [sortWith].
  rewrite insertSorted_filter by done. cbn [List.filter]. by rewrite IH.
Qed.

Lemma insertSorted_behind x (l : list A) :
  Forall (λ y, key y < key x) l → insertSorted cmp x l = l ++ [x].
Proof.
  induction 1 as [|y l Hy Hl IH]; [done|]. cbn [insertSorted].
  rewrite cmp_key, (proj2 (Z.ltb_lt _ _)) by lia. by rewrite IH.
Qed.

(** A list in strictly falling order of the key comes out reversed. *)
Lemma sortWith_falling (l : list A) :
  StronglySorted (λ a b, key b < key a) l → sortWith cmp l = rev l.
Proof.
  induction 1 as [|x l Hl IH Hx]; [done|]. cbn [sortWith rev]. rewrite IH.
  apply insertSorted_behind, Forall_forall. intros y Hy.
  apply list_elem_of_In, in_rev, list_elem_of_In in Hy.
  by eapply Forall_forall in Hx.
Qed.

End SortFacts.

Lemma StronglySorted_impl {A} (R R' : A → A → Prop) (l : list A) :
  (∀ a b, R a b → R' a b) → StronglySorted R l → StronglySorted R' l.
Proof.
  intros HR. induction 1 as [|x l Hl IH Hx]; constructor; [done|].
  eapply Forall_impl; [exact Hx | apply HR].
Qed.

Lemma StronglySorted_sublist_of {A} (R : A → A → Prop) (l1 l2 : list A) :
  l1 `sublist_of` l2 → StronglySorted R l2 → StronglySorted R l1.
Proof.
  induction 1 as [|x l1 l2 Hsub IH|x l1 l2 Hsub IH]; intros Hs; [done| |].
  - apply StronglySorted_inv in Hs as [Hs Hx]. constructor; [by apply IH|].
    by eapply Forall_sublist_of.
  - apply StronglySorted_inv in Hs as [Hs _]. by apply IH.
Qed.

(* ===================================================================== *)
(** ** Search history                                                    *)
(* ===================================================================== *)

Section HistoryFacts.
Implicit Types (query q : jsstring) (now : Z) (prev queries : list jsstring).
Implicit Types (searchHistory : list SearchHistory) (events : list (jsstring * Z)).

Lemma filter_differs q (l : list jsstring) :
  List.filter (λ y, negb (bool_decide (y = q))) l = filter (λ y, y ≠ q) l.
Proof.
  induction l as [|y l IH]; [done|]. cbn [List.filter]. rewrite filter_cons, IH.
  by destruct (decide (y = q)) as [->|Hne];
    [rewrite bool_decide_eq_true_2, decide_False by tauto
    |rewrite bool_decide_eq_false_2, decide_True by done].
Qed.

Lemma addSearch_unfold query prev :
  addSearch query prev = take 50 (query :: filter (λ y, y ≠ query) prev).
Proof. unfold addSearch, slice0. by rewrite filter_differs. Qed.

Lemma filter_keeps_all q (l : list jsstring) : q ∉ l → filter (λ y, y ≠ q) l = l.
Proof.
  induction l as [|x l IH]; [done|]. intros Hq. apply not_elem_of_cons in Hq as [Hx Hl].
  rewrite filter_cons, decide_True by done. by rewrite IH.
Qed.

(** A filter that drops at most the one occurrence of [q] cannot pull an
    element from behind position [S n] into the first [n]. *)
Lemma take_filter_take q (n : nat) (l : list jsstring) :
  NoDup l →
  take n (filter (λ y, y ≠ q) (take (S n) l)) = take n (filter (λ y, y ≠ q) l).
Proof.
  revert n. induction l as [|x l IH]; intros n Hnd; [done|].
  apply NoDup_cons in Hnd as [Hx Hnd]. cbn [take]. rewrite !filter_cons.
  destruct (decide (x ≠ q)) as [Hne|Heq].
  - destruct n as [|n]; [done|]. cbn [take]. by rewrite IH.
  - assert (x = q) as -> by (by destruct (decide (x = q)); [|tauto]).
    rewrite !filter_keeps_all; [by rewrite take_take, Nat.min_l by lia | done |].
    intros Hq. by apply elem_of_take_in in Hq.
Qed.

Lemma clientHistory_snoc queries query :
  clientHistory (queries ++ [query]) = addSearch query (clientHistory queries).
Proof. unfold clientHistory. by rewrite flat_map_app, fold_left_app. Qed.

(** Of two calls with no render in between, the second on the latest
    [addSearch], the first leaves no trace. *)
Lemma hookStep_overwrites (hook : Hook) (age : nat) (q1 q2 : jsstring) :
  hookStep (hookStep hook (CallAddSearch age q1)) (CallAddSearch 0 q2)
  = hookStep hook (CallAddSearch 0 q2).
Proof.
  cbn [hookStep]. by destruct ((storedValue hook :: earlier hook) !! age).
Qed.

Lemma recentDistinct_snoc queries query :
  recentDistinct (queries ++ [query]) = addSearch query (recentDistinct queries).
Proof.
  unfold recentDistinct. rewrite rev_app_distr, addSearch_unfold.
  cbn [rev app dedupFirstSeen take]. f_equal.
  symmetry. apply (take_filter_take query 49), NoDup_dedup.
Qed.

Lemma clientHistory_recent queries : clientHistory queries = recentDistinct queries.
Proof.
  induction queries as [|query queries IH] using rev_ind; [done|].
  by rewrite clientHistory_snoc, recentDistinct_snoc, IH.
Qed.

(** From an empty history, when each search calls the [addSearch] of the
    latest render and a render follows it before the next, the hook shows
    the 50 most recent distinct queries, the most recent first. Of two
    calls with no render in between, the second on the latest
    [addSearch], only the second takes effect. *)
Theorem client_history_recent_distinct :
  (∀ queries, clientHistory queries = recentDistinct queries)
  ∧ (∀ (hook : Hook) (age : nat) (q1 q2 : jsstring),
       hookStep (hookStep hook (CallAddSearch age q1)) (CallAddSearch 0 q2)
       = hookStep hook (CallAddSearch 0 q2)).
Proof. split; [apply clientHistory_recent | apply hookStep_overwrites]. Qed.

Lemma recentDistinct_NoDup queries : NoDup (recentDistinct queries).
Proof. apply NoDup_take_of, NoDup_dedup. Qed.

Lemma recentDistinct_length queries : (length (recentDistinct queries) ≤ 50)%nat.
Proof. unfold recentDistinct. rewrite length_take. lia. Qed.

(** [slice(-50)] under its guard is [slice(-50)] without. *)
Lemma addSearchHistory_unfold query now searchHistory :
  addSearchHistory query now searchHistory
  = sliceLast 50
      (List.filter (λ item, negb (bool_decide (h_query item = query))) searchHistory
       ++ [{| h_query := query; h_timestamp := now |}]).
Proof.
  unfold addSearchHistory, push. cbv zeta.
  destruct (Nat.ltb_spec 50 (length
    (List.filter (λ item, negb (bool_decide (h_query item = query))) searchHistory
     ++ [{| h_query := query; h_timestamp := now |}]))) as [Hlt|Hle]; [done|].
  unfold sliceLast. by replace (_ - 50)%nat with 0%nat by lia.
Qed.

(** One step of the server's history is one step of the client's, seen
    from the other end. *)
Lemma addSearchHistory_queries query now searchHistory :
  h_query <$> rev (addSearchHistory query now searchHistory)
  = addSearch query (h_query <$> rev searchHistory).
Proof.
  rewrite addSearchHistory_unfold. unfold sliceLast, addSearch, slice0.
  rewrite <- firstn_rev, rev_app_distr. cbn [rev app]. rewrite fmap_take, fmap_cons.
  cbn [h_query]. do 2 f_equal.
  change (h_query <$> ?l) with (List.map h_query l).
  by rewrite <- filter_rev, filter_map_swap.
Qed.

Lemma serverHistory_snoc events query now :
  serverHistory (events ++ [(query, now)])
  = addSearchHistory query now (serverHistory events).
Proof. unfold serverHistory. by rewrite fold_left_app. Qed.

Lemma serverHistory_queries events :
  h_query <$> rev (serverHistory events) = recentDistinct (events.*1).
Proof.
  induction events as [|[query now] events IH] using rev_ind; [done|].
  replace ((events ++ [(query, now)]).*1) with (events.*1 ++ [query])
    by (by rewrite fmap_app).
  by rewrite serverHistory_snoc, addSearchHistory_queries, IH, recentDistinct_snoc.
Qed.

Lemma serverHistory_length events : (length (serverHistory events) ≤ 50)%nat.
Proof.
  rewrite <- length_rev, <- (length_fmap h_query), serverHistory_queries.
  apply recentDistinct_length.
Qed.

Lemma serverHistory_NoDup events : NoDup (h_query <$> serverHistory events).
Proof.
  pose proof (recentDistinct_NoDup (events.*1)) as Hnd.
  rewrite <- serverHistory_queries in Hnd.
  change (h_query <$> ?l) with (List.map h_query l) in Hnd.
  rewrite map_rev in Hnd. apply NoDup_ListNoDup, NoDup_rev in Hnd.
  rewrite rev_involutive in Hnd. by apply NoDup_ListNoDup.
Qed.

(** The entries the server keeps are entries of the searches, in the
    order of the searches. *)
Lemma serverHistory_sublist events :
  serverHistory events
  `sublist_of` (λ e, {| h_query := e.1; h_timestamp := e.2 |}) <$> events.
Proof.
  induction events as [|[query now] events IH] using rev_ind; [done|].
  rewrite serverHistory_snoc, addSearchHistory_unfold, fmap_app. unfold sliceLast.
  etrans; [apply sublist_drop|]. apply sublist_app; [|done].
  etrans; [|exact IH]. clear IH. induction (serverHistory events) as [|x l IHl]; [done|].
  cbn [List.filter]. destruct (negb _); [by apply sublist_skip | by apply sublist_cons].
Qed.

(** After any sequence of searches the server stores the 50 most recent
    distinct queries, the oldest first, each with the clock value of one
    of the searches for it. *)
Theorem server_history_recent_distinct events :
  h_query <$> serverHistory events = rev (recentDistinct (events.*1))
  ∧ Forall (λ item, (h_query item, h_timestamp item) ∈ events) (serverHistory events).
Proof.
  split.
  - rewrite <- serverHistory_queries.
    change (h_query <$> ?l) with (List.map h_query l).
    by rewrite map_rev, rev_involutive.
  - apply Forall_forall. intros item Hitem.
    eapply elem_of_sublist in Hitem; [|apply serverHistory_sublist].
    apply list_elem_of_fmap in Hitem as ([q t] & -> & He). done.
Qed.

Lemma getSearchHistory_sorted searchHistory :
  (length searchHistory ≤ 50)%nat →
  getSearchHistory searchHistory
  = sortWith (λ a b, h_timestamp b - h_timestamp a) searchHistory.
Proof.
  intros Hlen. unfold getSearchHistory, slice0. apply take_ge.
  by rewrite (sortWith_perm (λ a b, h_timestamp b - h_timestamp a) searchHistory).
Qed.

(** The listing of the server's history holds every stored entry once and
    is in falling order of the clock values. *)
Theorem server_listing_newest_first events :
  getSearchHistory (serverHistory events) ≡ₚ serverHistory events
  ∧ StronglySorted (λ a b, h_timestamp b ≤ h_timestamp a)
      (getSearchHistory (serverHistory events)).
Proof.
  rewrite getSearchHistory_sorted by apply serverHistory_length. split.
  - apply sortWith_perm.
  - eapply StronglySorted_impl;
      [|apply (sortWith_sorted (λ a, - h_timestamp a)); intros; lia].
    intros a b Hab. cbn in Hab. lia.
Qed.

(** When the clock moves on between any two searches, the listing of the
    server's history is the stored list reversed, and its queries are what
    the client's hook shows after the same searches, each on the
    [addSearch] of the latest render and followed by a render. *)
Theorem server_listing_matches_client events :
  StronglySorted Z.lt (events.*2) →
  getSearchHistory (serverHistory events) = rev (serverHistory events)
  ∧ h_query <$> getSearchHistory (serverHistory events) = clientHistory (events.*1).
Proof.
  intros Hclock.
  assert (getSearchHistory (serverHistory events) = rev (serverHistory events)) as ->.
  { rewrite getSearchHistory_sorted by apply serverHistory_length.
    apply (sortWith_falling (λ a, - h_timestamp a)); [intros; lia|].
    eapply (StronglySorted_impl (λ a b, h_timestamp a < h_timestamp b));
      [intros a b Hab; lia|].
    eapply StronglySorted_sublist_of; [apply serverHistory_sublist|].
    clear -Hclock. induction events as [|[q t] events IH]; [constructor|].
    rewrite fmap_cons in Hclock. apply StronglySorted_inv in Hclock as [Hs Ht].
    rewrite fmap_cons. constructor; [by apply IH|].
    rewrite Forall_fmap in Ht. rewrite Forall_fmap.
    eapply Forall_impl; [exact Ht|]. by intros [q' t']. }
  split; [done|]. by rewrite serverHistory_queries, clientHistory_recent.
Qed.

End HistoryFacts.

(** An instance: three searches at clock values 1, 2 and 3. *)
Lemma server_listing_matches_client_witness :
  let events := [(str "rust", 1); (str "go", 2); (str "rust", 3)] in
  getSearchHistory (serverHistory events) = rev (serverHistory events)
  ∧ h_query <$> getSearchHistory (serverHistory events) = clientHistory (events.*1).
Proof.
  apply (server_listing_matches_client [(str "rust", 1); (str "go", 2); (str "rust", 3)]).
  repeat (constructor; [|repeat constructor; lia]). constructor.
Defined.

(** Two searches at one clock value: the listing keeps them in the order
    of their arrival, the client shows the later one first. *)
Example server_listing_same_clock :
  let events := [(str "rust", 7); (str "go", 7)] in
  h_query <$> getSearchHistory (serverHistory events) = [str "rust"; str "go"]
  ∧ clientHistory (events.*1) = [str "go"; str "rust"].
Proof. by vm_compute. Qed.

(* ===================================================================== *)
(** ** Reading resources back                                            *)
(* ===================================================================== *)

Section ReadBackFacts.
Implicit Types (planId source : jsstring) (dayNumber : Z) (rows : list Resource).
Implicit Types (grouped : gmap Z (gmap jsstring (list JsVal))).

Lemma filter_filter_and {A} (P Q : A → bool) (l : list A) :
  List.filter Q (List.filter P l) = List.filter (λ x, P x && Q x) l.
Proof.
  induction l as [|x l IH]; [done|]. cbn [List.filter].
  destruct (P x); cbn [List.filter andb]; by rewrite IH.
Qed.

Lemma last_cons_or {A} (x : A) (l : list A) :
  last (x :: l) = match last l with Some y => Some y | None => Some x end.
Proof. by destruct l as [|y l]; [|rewrite last_cons; destruct (last (y :: l))]. Qed.

Lemma groupStep_lookup grouped (resource : Resource) dayNumber source :
  (groupStep grouped resource !! dayNumber) ≫= (.!! source)
  = if bool_decide (r_day resource = dayNumber) && bool_decide (r_source resource = source)
       && negb (bool_decide (source = str "__proto__"))
    then Some (r_data resource)
    else (grouped !! dayNumber) ≫= (.!! source).
Proof.
  unfold groupStep. cbv zeta.
  destruct (decide (r_day resource = dayNumber)) as [<-|Hd].
  - rewrite lookup_insert_eq, (bool_decide_eq_true_2 (r_day resource = _)) by done.
    cbn [mbind option_bind andb].
    destruct (decide (r_source resource = source)) as [<-|Hs].
    + rewrite (bool_decide_eq_true_2 (_ = r_source _)) by done. cbn [andb].
      case_bool_decide as Hp; cbn [negb]; [|by rewrite lookup_insert_eq].
      by destruct (grouped !! r_day resource).
    + rewrite (bool_decide_eq_false_2 (_ = source)) by done. cbn [andb].
      case_bool_decide as Hp; [|rewrite lookup_insert_ne by done];
        by destruct (grouped !! r_day resource).
  - rewrite lookup_insert_ne, (bool_decide_eq_false_2 (r_day resource = _)) by done. done.
Qed.

Lemma fold_groupStep_lookup rows grouped dayNumber source :
  (fold_left groupStep rows grouped !! dayNumber) ≫= (.!! source)
  = match last (List.filter
                  (λ r, bool_decide (r_day r = dayNumber)
                        && bool_decide (r_source r = source)) rows) with
    | Some r => if bool_decide (source = str "__proto__") then
                  (grouped !! dayNumber) ≫= (.!! source)
                else Some (r_data r)
    | None => (grouped !! dayNumber) ≫= (.!! source)
    end.
Proof.
  revert grouped. induction rows as [|r rows IH]; intros grouped; [done|].
  cbn [fold_left List.filter]. rewrite IH, groupStep_lookup.
  destruct (bool_decide (r_day r = dayNumber) && bool_decide (r_source r = source));
    cbn [andb]; [rewrite last_cons_or|];
    destruct (last _); by destruct (bool_decide (source = _)).
Qed.

Lemma getResourcesByPlanId_day planId rows dayNumber (P : Resource → bool) :
  List.filter (λ r, bool_decide (r_day r = dayNumber) && P r)
              (getResourcesByPlanId planId rows)
  = List.filter (λ r, bool_decide (r_planId r = planId)
                      && (bool_decide (r_day r = dayNumber) && P r)) rows.
Proof.
  unfold getResourcesByPlanId.
  rewrite (sortWith_stable r_day (λ a b, r_day a - r_day b)); [|done|].
  - apply filter_filter_and.
  - intros a b [Ha%bool_decide_eq_true _]%andb_true_iff
                [Hb%bool_decide_eq_true _]%andb_true_iff. congruence.
Qed.

Lemma groupResources_lookup planId rows dayNumber source :
  (groupResources planId rows !! dayNumber) ≫= (.!! source)
  = if bool_decide (source = str "__proto__") then None
    else lastWritten planId dayNumber source rows.
Proof.
  unfold groupResources, lastWritten. rewrite fold_groupStep_lookup, lookup_empty.
  rewrite getResourcesByPlanId_day.
  erewrite List.filter_ext; [|intros r; apply andb_assoc].
  destruct (last _); by case_bool_decide.
Qed.

(** What the handler answers under a day and a source is the data of the
    row written last for this plan, day and source; rows of the source
    [__proto__] never show. *)
Theorem grouped_is_last_written planId rows dayNumber source :
  (groupResources planId rows !! dayNumber) ≫= (.!! source)
  = if bool_decide (source = str "__proto__") then None
    else lastWritten planId dayNumber source rows.
Proof. apply groupResources_lookup. Qed.

End ReadBackFacts.

(* ===================================================================== *)
(** ** Orchestrator: rows written and lookups spawned                    *)
(* ===================================================================== *)

Section OrchestratorTrace.
Variable JSON_parse : jsstring -> Completion JsVal.
Variable lookup : nat -> jsstring -> jsstring -> Outcome.
Implicit Types (st : State) (source query planId : jsstring).
Implicit Types (planStructure : LearningPlanStructure) (d : DayPlan).

Lemma appends_refl (P : Resource → Prop) st : appends P st st.
Proof. exists []. by rewrite app_nil_r. Qed.

Lemma appends_trans (P : Resource → Prop) st1 st2 st3 :
  appends P st1 st2 → appends P st2 st3 → appends P st1 st3.
Proof.
  intros (a1 & H1 & Ha1) (a2 & H2 & Ha2). exists (a1 ++ a2).
  split; [by rewrite H2, H1, app_assoc | by apply Forall_app].
Qed.

Lemma appends_impl (P Q : Resource → Prop) st st' :
  (∀ record, P record → Q record) → appends P st st' → appends Q st st'.
Proof.
  intros HPQ (added & H & Ha). exists added. split; [done|].
  eapply Forall_impl; [exact Ha | done].
Qed.

Lemma forEachM_appends {A B} (P : Resource → Prop) (body : B → A → M B) (xs : list A) :
  (∀ acc x st r st', x ∈ xs → body acc x st = (r, st') → appends P st st') →
  ∀ acc st r st', forEachM body xs acc st = (r, st') → appends P st st'.
Proof.
  induction xs as [|x xs IH]; intros Hbody acc st r st'; cbn [forEachM].
  - intros [= <- <-]. apply appends_refl.
  - unfold bindM. destruct (body acc x st) as [[acc1|e] st1] eqn:Hb.
    + intros Hrest. eapply appends_trans.
      * eapply Hbody; [|exact Hb]. by left.
      * eapply IH; [|exact Hrest]. intros ????? Hin. apply Hbody. by right.
    + intros [= <- <-]. eapply Hbody; [|exact Hb]. by left.
Qed.

Lemma forEachM_spawns {A B} (E : A → list (jsstring * jsstring))
    (body : B → A → M B) (xs : list A) :
  (∀ acc x st r st', body acc x st = (r, st') → spawns (E x) st r st') →
  ∀ acc st r st', forEachM body xs acc st = (r, st') → spawns (flat_map E xs) st r st'.
Proof.
  intros Hbody. induction xs as [|x xs IH]; intros acc st r st'; cbn [forEachM flat_map].
  - intros [= <- <-]. exists []. by rewrite app_nil_r.
  - unfold bindM. destruct (body acc x st) as [[acc1|e] st1] eqn:Hb;
      destruct (Hbody _ _ _ _ _ Hb) as (n1 & Hc1 & Hp1 & Hd1).
    + intros Hrest. destruct (IH _ _ _ _ Hrest) as (n2 & Hc2 & Hp2 & Hd2).
      rewrite (Hd1 _ eq_refl) in Hc1. exists (E x ++ n2).
      split; [by rewrite Hc2, Hc1, app_assoc|]. split; [by apply prefix_app|].
      intros a Ha. by rewrite (Hd2 a Ha).
    + intros [= <- <-]. exists n1. split; [done|].
      split; [by apply prefix_app_r | done].
Qed.

Lemma queryStep_rows source (all : list JsVal) query st (r : Run (list JsVal)) st' :
  queryStep JSON_parse lookup source all query st = (r, st') →
  resources st' = resources st ∧ spawns [(source, query)] st r st'.
Proof.
  unfold queryStep, bindM.
  destruct (awaitFetch JSON_parse lookup source query st) as [[fetched|e] st1] eqn:Hf;
    apply awaitFetch_calls in Hf as [Hcalls Hres]; unfold ret; intros [= <- <-];
    (split; [done|]); by exists [(source, query)].
Qed.

Lemma queryLoop_rows source (queries : list jsstring) (all : list JsVal) st
    (r : Run (list JsVal)) st' :
  forEachM (queryStep JSON_parse lookup source) queries all st = (r, st') →
  resources st' = resources st
  ∧ spawns ((λ query, (source, query)) <$> queries) st r st'.
Proof.
  intros Hloop. split.
  - eapply (forEachM_appends (λ _, False)) in Hloop as (added & Hres & Hadded).
    + destruct added; [by rewrite app_nil_r in Hres | by inversion Hadded].
    + intros ????? _ Hq. apply queryStep_rows in Hq as [Hsame _].
      exists []. by rewrite app_nil_r.
  - eapply (forEachM_spawns (λ query, [(source, query)])) in Hloop.
    + replace (flat_map _ queries) with ((λ query, (source, query)) <$> queries) in Hloop;
        [done|]. clear. induction queries; [done|]. cbn. by f_equal.
    + intros ????? Hq. by apply queryStep_rows in Hq as [_ ?].
Qed.

Lemma sourceStep_rows planId planStructure dayNumber (searchQueries : list jsstring)
    (u : unit) source st (r : Run unit) st' :
  sourceStep JSON_parse lookup planId planStructure dayNumber searchQueries u source st
  = (r, st') →
  appends (λ record, r_planId record = planId ∧ r_source record = source
                     ∧ r_day record = dayNumber) st st'
  ∧ spawns ((λ query, (source, query))
              <$> optimizeQueriesForSource source searchQueries (topic planStructure))
           st r st'.
Proof.
  unfold sourceStep. cbv zeta. unfold bindM at 1.
  destruct (forEachM _ _ _ st) as [[all|e] st1] eqn:Hloop;
    apply queryLoop_rows in Hloop as [Hres (new & Hcalls & Hpre & Hdone)].
  - specialize (Hdone all eq_refl).
    destruct (uniqueResources all) as [unique|]; [destruct (0 <? length unique)%nat|];
      unfold addResource, ret; intros [= <- <-]; cbn [calls resources].
    + split; [|by exists new]. exists [ {| r_planId := planId; r_day := dayNumber;
                                          r_source := source; r_data := unique |} ].
      split; [by rewrite Hres|]. by repeat constructor.
    + split; [|by exists new]. exists []. by rewrite Hres, app_nil_r.
    + split; [|by exists new]. exists []. by rewrite Hres, app_nil_r.
  - intros [= <- <-]. split; [|by exists new].
    exists []. by rewrite Hres, app_nil_r.
Qed.

Lemma dayStep_rows planId planStructure (u : unit) d st (r : Run unit) st' :
  dayStep JSON_parse lookup planId planStructure u d st = (r, st') →
  appends (λ record, r_planId record = planId ∧ r_source record ∈ sources
                     ∧ r_day record = day d) st st'
  ∧ spawns (dayCalls planStructure d) st r st'.
Proof.
  unfold dayStep. cbv zeta. intros Hloop. split.
  - eapply forEachM_appends in Hloop; [exact Hloop|].
    intros ? source ??? Hs Hstep. apply sourceStep_rows in Hstep as [Happ _].
    eapply appends_impl; [|exact Happ]. by intros record (? & -> & ?).
  - eapply (forEachM_spawns
              (λ source, (λ query, (source, query))
                 <$> optimizeQueriesForSource source
                       (generateComprehensiveSearchQueries planStructure d)
                       (topic planStructure))) in Hloop; [exact Hloop|].
    intros ????? Hstep. by apply sourceStep_rows in Hstep as [_ ?].
Qed.

Lemma planLoop_rows planId planStructure st (r : Run unit) st' :
  fetchResourcesForPlan JSON_parse lookup planId planStructure st = (r, st') →
  appends (rowOf planId planStructure) st st'
  ∧ spawns (planCalls planStructure) st r st'.
Proof.
  unfold fetchResourcesForPlan. intros Hloop. split.
  - eapply forEachM_appends in Hloop; [exact Hloop|].
    intros ? d ??? Hd Hstep. apply dayStep_rows in Hstep as [Happ _].
    eapply appends_impl; [|exact Happ]. intros record (? & ? & Hday).
    split_and!; [done..|]. rewrite Hday. by apply list_elem_of_fmap_2.
  - eapply (forEachM_spawns (dayCalls planStructure)) in Hloop; [exact Hloop|].
    intros ????? Hstep. by apply dayStep_rows in Hstep as [_ ?].
Qed.

(** A run of the orchestrator only appends to the store, and every row
    it appends carries the id of its plan, one of the four sources and the
    number of a day of the plan. *)
Theorem orchestrator_rows_of_own_plan planId planStructure st :
  ∃ added,
    resources (fetchResourcesForPlan JSON_parse lookup planId planStructure st).2
    = resources st ++ added
    ∧ Forall (rowOf planId planStructure) added.
Proof.
  destruct (fetchResourcesForPlan JSON_parse lookup planId planStructure st)
    as [r st'] eqn:Hrun.
  by apply planLoop_rows in Hrun as [Happ _].
Qed.

Lemma getResourcesByPlanId_app_other (other : jsstring) (rows added : list Resource) :
  Forall (λ record, r_planId record ≠ other) added →
  getResourcesByPlanId other (rows ++ added) = getResourcesByPlanId other rows.
Proof.
  intros Hadded. unfold getResourcesByPlanId. rewrite List.filter_app.
  replace (List.filter _ added) with (@nil Resource); [by rewrite app_nil_r|].
  induction Hadded as [|record added Hne _ IH]; [done|].
  cbn [List.filter]. by rewrite bool_decide_eq_false_2.
Qed.

(** What is read back for another plan is the same before and after a
    run of the orchestrator. *)
Theorem other_plans_read_back_unchanged planId (other : jsstring) planStructure st :
  other ≠ planId →
  groupResources other
    (resources (fetchResourcesForPlan JSON_parse lookup planId planStructure st).2)
  = groupResources other (resources st).
Proof.
  intros Hother.
  destruct (fetchResourcesForPlan JSON_parse lookup planId planStructure st)
    as [r st'] eqn:Hrun.
  apply planLoop_rows in Hrun as [(added & Hres & Hadded) _].
  unfold groupResources. cbn [snd]. rewrite Hres, getResourcesByPlanId_app_other; [done|].
  eapply Forall_impl; [exact Hadded|]. intros record (Hid & _). congruence.
Qed.

Lemma optimized_length source (base : list jsstring) (t : jsstring) :
  (length (optimizeQueriesForSource source base t) ≤ 8)%nat.
Proof. rewrite optimizer_unfold, length_take. lia. Qed.

Lemma dayCalls_length planStructure d : (length (dayCalls planStructure d) ≤ 32)%nat.
Proof.
  unfold dayCalls, sources. cbn [flat_map]. rewrite !length_app, !length_fmap.
  pose proof (optimized_length (str "wikipedia")
                (generateComprehensiveSearchQueries planStructure d) (topic planStructure)).
  pose proof (optimized_length (str "youtube")
                (generateComprehensiveSearchQueries planStructure d) (topic planStructure)).
  pose proof (optimized_length (str "reddit")
                (generateComprehensiveSearchQueries planStructure d) (topic planStructure)).
  pose proof (optimized_length (str "medium")
                (generateComprehensiveSearchQueries planStructure d) (topic planStructure)).
  cbn [length]. lia.
Qed.

Lemma planCalls_length planStructure :
  (length (planCalls planStructure) ≤ 32 * length (default [] (days planStructure)))%nat.
Proof.
  unfold planCalls. induction (default [] (days planStructure)) as [|d ds IH]; [done|].
  cbn [flat_map length]. rewrite length_app.
  pose proof (dayCalls_length planStructure d). lia.
Qed.

(** Whatever the lookups do, a run of the orchestrator spawns the lookups
    of the plan in their order, day by day and source by source, or the
    first of them; these are at most 8 per source, 32 for each day of
    the plan. *)
Theorem orchestrator_lookup_budget planId planStructure st :
  ∃ new,
    calls (fetchResourcesForPlan JSON_parse lookup planId planStructure st).2
    = calls st ++ new
    ∧ new `prefix_of` planCalls planStructure
    ∧ (length new ≤ 32 * length (default [] (days planStructure)))%nat.
Proof.
  destruct (fetchResourcesForPlan JSON_parse lookup planId planStructure st)
    as [r st'] eqn:Hrun.
  apply planLoop_rows in Hrun as [_ (new & Hcalls & Hpre & _)].
  exists new. split_and!; [done..|].
  etrans; [by apply prefix_length | apply planCalls_length].
Qed.

Lemma forEachM_done {A B} (body : B → A → M B) (xs : list A) :
  (∀ acc x st, x ∈ xs → ∃ acc' st', body acc x st = (Done acc', st')) →
  ∀ acc st, ∃ acc' st', forEachM body xs acc st = (Done acc', st').
Proof.
  induction xs as [|x xs IH]; intros Hbody acc st; cbn [forEachM].
  - by exists acc, st.
  - unfold bindM. destruct (Hbody acc x st) as (acc1 & st1 & ->); [by left|].
    apply IH. intros ??? Hin. apply Hbody. by right.
Qed.

Lemma queryStep_done source (all : list JsVal) query st :
  source ∈ sources → wfString query →
  ∃ all' st', queryStep JSON_parse lookup source all query st = (Done all', st').
Proof.
  intros Hs Hq. unfold queryStep, bindM.
  rewrite awaitFetch_resolves by by apply resolves_wellFormed.
  unfold ret. by eexists _, _.
Qed.

Lemma sourceStep_done planId planStructure d (u : unit) source st :
  wfDay planStructure d → source ∈ sources →
  ∃ st',
    sourceStep JSON_parse lookup planId planStructure (day d)
      (generateComprehensiveSearchQueries planStructure d) u source st
    = (Done tt, st').
Proof.
  intros (Ht & Hti & Hph & Hms) Hs. unfold sourceStep. cbv zeta. unfold bindM at 1.
  pose proof (optimized_wellFormed planStructure d source Ht Hti Hph Hms) as Hwf.
  destruct (forEachM_done (queryStep JSON_parse lookup source)
              (optimizeQueriesForSource source
                 (generateComprehensiveSearchQueries planStructure d)
                 (topic planStructure))) with (acc := @nil JsVal) (st := st)
    as (all & st1 & ->).
  { intros acc query st0 Hq. apply queryStep_done; [done|].
    by eapply Forall_forall in Hwf. }
  destruct (uniqueResources all) as [unique|]; [destruct (0 <? length unique)%nat|];
    unfold addResource, ret; by eexists.
Qed.

Lemma dayStep_done planId planStructure (u : unit) d st :
  wfDay planStructure d →
  ∃ st', dayStep JSON_parse lookup planId planStructure u d st = (Done tt, st').
Proof.
  intros Hd. unfold dayStep. cbv zeta.
  destruct (forEachM_done
              (sourceStep JSON_parse lookup planId planStructure (day d)
                 (generateComprehensiveSearchQueries planStructure d)) sources)
    with (acc := tt) (st := st) as ([] & st' & ->); [|by exists st'].
  intros [] source st0 Hs.
  destruct (sourceStep_done planId planStructure d tt source st0 Hd Hs) as (st1 & ->).
  by exists tt, st1.
Qed.

(** When the strings of the plan hold no unpaired surrogate, a run of the
    orchestrator comes to its end, whatever the lookups do, after
    spawning every lookup of the plan. *)
Theorem orchestrator_completes_on_wellFormed planId planStructure st :
  Forall (wfDay planStructure) (default [] (days planStructure)) →
  ∃ st',
    fetchResourcesForPlan JSON_parse lookup planId planStructure st = (Done tt, st')
    ∧ calls st' = calls st ++ planCalls planStructure.
Proof.
  intros Hdays.
  destruct (forEachM_done (dayStep JSON_parse lookup planId planStructure)
              (default [] (days planStructure))) with (acc := tt) (st := st)
    as ([] & st' & Hrun).
  { intros [] d st0 Hd. eapply Forall_forall in Hdays; [|exact Hd].
    destruct (dayStep_done planId planStructure tt d st0 Hdays) as (st1 & ->).
    by exists tt, st1. }
  exists st'. split; [exact Hrun|].
  apply planLoop_rows in Hrun as [_ (new & Hcalls & _ & Hdone)].
  by rewrite Hcalls, (Hdone tt eq_refl).
Qed.

End OrchestratorTrace.

(** An instance: the plan of the example, read back for another plan. *)
Lemma other_plans_read_back_unchanged_witness :
  groupResources (str "plan-2")
    (resources (fetchResourcesForPlan parseRealItem firstAnswers (str "plan-1") rustPlan
                  initial).2)
  = groupResources (str "plan-2") (resources initial).
Proof.
  apply (other_plans_read_back_unchanged parseRealItem firstAnswers (str "plan-1")
           (str "plan-2") rustPlan initial).
  discriminate.
Defined.

(** An instance: the plan of the example. *)
Lemma orchestrator_completes_on_wellFormed_witness :
  ∃ st',
    fetchResourcesForPlan parseRealItem firstAnswers (str "plan-1") rustPlan initial
    = (Done tt, st')
    ∧ calls st' = calls initial ++ planCalls rustPlan.
Proof.
  apply (orchestrator_completes_on_wellFormed parseRealItem firstAnswers (str "plan-1")
           rustPlan initial).
  constructor; [|constructor]. unfold wfDay, wfString.
  split_and!; try by vm_compute. repeat constructor.
Defined.

(* ===================================================================== *)
(** ** From the fallback plan to the answer of the read-back             *)
(* ===================================================================== *)

Section FallbackPlanReadBack.
Variable JSON_parse : jsstring -> Completion JsVal.
Variable lookup : nat -> jsstring -> jsstring -> Outcome.
Implicit Types (st : State) (source planId topic : jsstring) (duration n : Z).
Implicit Types (planStructure : LearningPlanStructure) (d : DayPlan).

(** No lookup of the run gives real results. *)
Hypothesis lookups_fail : ∀ i source query, realResults JSON_parse (lookup i source query) = None.

Lemma planLoop_fail planId planStructure st :
  Forall (wfDay planStructure) (default [] (days planStructure)) →
  ∃ added,
    resources (fetchResourcesForPlan JSON_parse lookup planId planStructure st).2
    = resources st ++ concat added
    ∧ Forall2 (λ d records, Forall2 (fallbackRecord (day d)) sources records)
        (default [] (days planStructure)) added.
Proof.
  unfold fetchResourcesForPlan. intros Hdays. revert st.
  induction Hdays as [|d ds Hd Hds IH]; intros st.
  - exists []. simpl. by rewrite app_nil_r.
  - destruct (dayStep_fail JSON_parse lookup lookups_fail planId planStructure tt d st Hd)
      as (a1 & st1 & Hstep & Hr1 & Hf1).
    destruct (IH st1) as (added & Hres & Hf).
    exists (a1 :: added). cbn [forEachM]. unfold bindM at 1. rewrite Hstep.
    rewrite Hres, Hr1. simpl. rewrite <- app_assoc. split; [done | by constructor].
Qed.

Lemma fallbackRecords_each (ds : list DayPlan) (added : list (list Resource)) :
  Forall2 (λ d records, Forall2 (fallbackRecord (day d)) sources records) ds added →
  Forall (λ record, fallbackRecord (r_day record) (r_source record) record) (concat added)
  ∧ ∀ d source, d ∈ ds → source ∈ sources →
      ∃ record, record ∈ concat added ∧ fallbackRecord (day d) source record.
Proof.
  induction 1 as [|d records ds added Hd _ [IH1 IH2]]; cbn [concat].
  - split; [constructor | intros d source Hd; by apply elem_of_nil in Hd].
  - split.
    + apply Forall_app. split; [|done]. clear -Hd.
      induction Hd as [|source record ss rs (Hday & Hsrc & Hrest) _ IH];
        constructor; [|done]. by rewrite Hday, Hsrc.
    + intros d' source [->|Hd']%elem_of_cons Hs.
      * unfold sources in Hd, Hs.
        apply Forall2_cons_inv_l in Hd as (r1 & k1 & H1 & Hd & ->).
        apply Forall2_cons_inv_l in Hd as (r2 & k2 & H2 & Hd & ->).
        apply Forall2_cons_inv_l in Hd as (r3 & k3 & H3 & Hd & ->).
        apply Forall2_cons_inv_l in Hd as (r4 & k4 & H4 & Hd & ->).
        apply elem_of_cons in Hs as [->|Hs]; [exists r1; split; [set_solver|done]|].
        apply elem_of_cons in Hs as [->|Hs]; [exists r2; split; [set_solver|done]|].
        apply elem_of_cons in Hs as [->|Hs]; [exists r3; split; [set_solver|done]|].
        apply elem_of_cons in Hs as [->|Hs]; [exists r4; split; [set_solver|done]|].
        by apply elem_of_nil in Hs.
      * destruct (IH2 d' source Hd' Hs) as (record & Hin & Hfr).
        exists record. split; [|done]. apply elem_of_app. by right.
Qed.

Lemma last_filter_found {A} (P : A → bool) (l : list A) (x : A) :
  x ∈ l → P x = true → ∃ y, last (List.filter P l) = Some y ∧ y ∈ l ∧ P y = true.
Proof.
  intros Hx HP.
  assert (x ∈ List.filter P l) as Hin.
  { apply list_elem_of_In, filter_In. split; [by apply list_elem_of_In | done]. }
  destruct (last (List.filter P l)) as [y|] eqn:Hlast.
  - exists y. split; [done|]. apply last_Some in Hlast as [l' Hl'].
    assert (y ∈ List.filter P l) as Hy by (rewrite Hl'; apply elem_of_app; right; by left).
    apply list_elem_of_In, filter_In in Hy as [Hy HPy]. by apply list_elem_of_In in Hy.
  - apply last_None in Hlast. rewrite Hlast in Hin. by apply elem_of_nil in Hin.
Qed.

(** When generating the plan fell back, the topic holds no unpaired
    surrogate and no lookup gives real results, then, once the
    orchestrator has run on an empty store, the read-back answers for
    every day of the plan and each of the four sources with a non-empty
    list of synthesized fallback items. *)
Theorem fallback_plan_read_back planId topic duration n source :
  wfString topic → 1 ≤ n ≤ duration → source ∈ sources →
  ∃ items,
    (groupResources planId
       (resources (fetchResourcesForPlan JSON_parse lookup planId
                     (g_structure (generateFallbackPlan topic duration)) initial).2)
       !! n) ≫= (.!! source)
    = Some items
    ∧ items ≠ [] ∧ Forall (λ item, isFallbackItem item = true) items.
Proof.
  intros Ht Hn Hs.
  pose proof (fallbackDays_wellFormed topic duration Ht) as Hwf.
  destruct (planLoop_fail planId _ initial Hwf) as (added & Hres & Hall).
  destruct (fetchResourcesForPlan JSON_parse lookup planId _ initial) as [r st'] eqn:Hrun.
  apply planLoop_rows in Hrun as [(added' & Hres' & Hrows) _].
  cbn [snd initial resources app] in *. rewrite Hres in Hres'. subst added'.
  apply fallbackRecords_each in Hall as [Heach Hsome].
  assert (∃ d, d ∈ default [] (days (g_structure (generateFallbackPlan topic duration)))
               ∧ day d = n) as (d & Hd & <-).
  { cbn [generateFallbackPlan g_structure days from_option id].
    assert (n ∈ day <$> List.map (fallbackDay topic duration) (seq 0 (Z.to_nat duration)))
      as Hin.
    { rewrite fallbackDays_numbers. apply list_elem_of_fmap.
      exists (Z.to_nat n). split; [lia|]. apply list_elem_of_In, in_seq. lia. }
    apply list_elem_of_fmap in Hin as (d & -> & Hd). by exists d. }
  destruct (Hsome d source Hd Hs) as (record & Hin & Hday & Hsrc & Hne & Hfb).
  rewrite groupResources_lookup, Hres, bool_decide_eq_false_2.
  2:{ intros ->. unfold sources in Hs.
      repeat (apply elem_of_cons in Hs as [Hs|Hs]; [discriminate Hs|]).
      by apply elem_of_nil in Hs. }
  unfold lastWritten.
  destruct (last_filter_found
              (λ resource, bool_decide (r_planId resource = planId)
                           && bool_decide (r_day resource = day d)
                           && bool_decide (r_source resource = source))
              (concat added) record Hin) as (y & -> & Hy & _).
  { eapply Forall_forall in Hrows as (Hid & _); [|exact Hin].
    by rewrite !bool_decide_eq_true_2. }
  eapply Forall_forall in Heach as (_ & _ & Hne' & Hfb'); [|exact Hy].
  by exists (r_data y).
Qed.

End FallbackPlanReadBack.

(** An instance: a fallback plan of two days, every lookup timing out;
    day 2, reddit. *)
Lemma fallback_plan_read_back_witness :
  ∃ items,
    (groupResources (str "plan-1")
       (resources (fetchResourcesForPlan parseNothing allTimedOut (str "plan-1")
                     (g_structure (generateFallbackPlan (str "rust") 2)) initial).2)
       !! 2) ≫= (.!! str "reddit")
    = Some items
    ∧ items ≠ [] ∧ Forall (λ item, isFallbackItem item = true) items.
Proof.
  apply (fallback_plan_read_back parseNothing allTimedOut); [done | | lia |].
  - by vm_compute.
  - apply (bool_decide_unpack _). by vm_compute.
Defined.

(* ===================================================================== *)
(** ** The immediate path, whatever the lookups do                       *)
(* ===================================================================== *)

Section ImmediateBudget.
Variable JSON_parse : jsstring -> Completion JsVal.
Variable lookup : nat -> jsstring -> jsstring -> Outcome.
Implicit Types (st : State) (topic : jsstring) (duration n : Z).

Lemma immediateStep_rows topic (acc : gmap Z ResourceGroup) n st
    (r : Run (gmap Z ResourceGroup)) st' :
  immediateStep JSON_parse lookup topic acc n st = (r, st') →
  resources st' = resources st
  ∧ spawns (immediateCalls topic [n]) st r st'.
Proof.
  unfold immediateStep, immediateCalls. cbv zeta. cbn [flat_map app]. unfold bindM.
  destruct (awaitFetch _ _ _ _ st) as [[w|e] st1] eqn:H1;
    apply awaitFetch_calls in H1 as [Hc1 Hr1].
  2:{ intros [= <- <-]. split; [done|]. eexists [_]. split; [done|].
      split; [by eexists | done]. }
  destruct (awaitFetch _ _ _ _ st1) as [[y|e] st2] eqn:H2;
    apply awaitFetch_calls in H2 as [Hc2 Hr2].
  2:{ intros [= <- <-]. split; [congruence|]. eexists [_; _].
      split; [by rewrite Hc2, Hc1, <- app_assoc|]. split; [by eexists | done]. }
  destruct (awaitFetch _ _ _ _ st2) as [[rd|e] st3] eqn:H3;
    apply awaitFetch_calls in H3 as [Hc3 Hr3].
  2:{ intros [= <- <-]. split; [congruence|]. eexists [_; _; _].
      split; [by rewrite Hc3, Hc2, Hc1, <- !app_assoc|]. split; [by eexists | done]. }
  destruct (awaitFetch _ _ _ _ st3) as [[m|e] st4] eqn:H4;
    apply awaitFetch_calls in H4 as [Hc4 Hr4]; unfold ret; intros [= <- <-];
    (split; [congruence|]); eexists [_; _; _; _];
    (split; [by rewrite Hc4, Hc3, Hc2, Hc1, <- !app_assoc|]); split; done.
Qed.

Lemma immediateCalls_length topic (ds : list Z) :
  length (immediateCalls topic ds) = (4 * length ds)%nat.
Proof.
  unfold immediateCalls. induction ds as [|n ds IH]; [done|].
  cbn [flat_map app length]. rewrite IH. lia.
Qed.

Lemma immediateCalls_flat topic (ds : list Z) :
  flat_map (λ n, immediateCalls topic [n]) ds = immediateCalls topic ds.
Proof.
  induction ds as [|n ds IH]; [done|]. cbn [flat_map]. rewrite IH.
  unfold immediateCalls. by cbn [flat_map app].
Qed.

(** Whatever the lookups do and however long the plan, the immediate path
    writes nothing to the store and spawns the lookups of the first days
    in their order, or the first of them: at most 20. *)
Theorem immediate_path_budget topic duration st :
  resources (generateImmediateResources JSON_parse lookup topic duration st).2
  = resources st
  ∧ ∃ new,
      calls (generateImmediateResources JSON_parse lookup topic duration st).2
      = calls st ++ new
      ∧ new `prefix_of` immediateCalls topic (immediateDays duration)
      ∧ (length new ≤ 20)%nat.
Proof.
  destruct (generateImmediateResources JSON_parse lookup topic duration st)
    as [r st'] eqn:Hrun.
  unfold generateImmediateResources in Hrun. cbn [snd]. split.
  - eapply (forEachM_appends (λ _, False)) in Hrun as (added & Hres & Hadded).
    + destruct added; [by rewrite app_nil_r in Hres | by inversion Hadded].
    + intros ????? _ Hstep. apply immediateStep_rows in Hstep as [Hsame _].
      exists []. by rewrite app_nil_r.
  - eapply (forEachM_spawns (λ n, immediateCalls topic [n])) in Hrun.
    + destruct Hrun as (new & Hcalls & Hpre & _).
      rewrite immediateCalls_flat in Hpre.
      exists new. split_and!; [done..|].
      etrans; [by apply prefix_length|]. rewrite immediateCalls_length.
      unfold immediateDays. rewrite length_map, length_seq. lia.
    + intros ????? Hstep. by apply immediateStep_rows in Hstep as [_ ?].
Qed.

End ImmediateBudget.

(* ===================================================================== *)
(** ** Learning plans                                                    *)
(* ===================================================================== *)

Section PlanStoreFacts.
Implicit Types (id planId other : jsstring) (now dayNumber : Z).
Implicit Types (learningPlans : list (jsstring * LearningPlan)).

Lemma mapGet_mapSet {V} (k : jsstring) (v : V) (m : list (jsstring * V)) :
  mapGet k (mapSet k v m) = Some v.
Proof.
  induction m as [|[k' v'] m IH]; cbn [mapSet mapGet].
  - by rewrite bool_decide_eq_true_2.
  - case_bool_decide as Hk; cbn [mapGet].
    + by rewrite bool_decide_eq_true_2.
    + by rewrite bool_decide_eq_false_2.
Qed.

Lemma mapGet_mapSet_ne {V} (k k' : jsstring) (v : V) (m : list (jsstring * V)) :
  k' ≠ k → mapGet k' (mapSet k v m) = mapGet k' m.
Proof.
  intros Hne. induction m as [|[k0 v0] m IH]; cbn [mapSet mapGet].
  - by rewrite bool_decide_eq_false_2.
  - case_bool_decide as Hk; cbn [mapGet]; [subst k0|by rewrite IH].
    by rewrite !bool_decide_eq_false_2.
Qed.

Lemma mapSet_present {V} (k : jsstring) (v : V) (m : list (jsstring * V)) :
  is_Some (mapGet k m) → (mapSet k v m).*1 = m.*1.
Proof.
  induction m as [|[k0 v0] m IH]; cbn [mapSet mapGet]; [by intros [? [=]]|].
  case_bool_decide as Hk; [by subst k0|]. intros Hm. cbn. by rewrite IH.
Qed.

Lemma mapSet_absent {V} (k : jsstring) (v : V) (m : list (jsstring * V)) :
  mapGet k m = None → mapSet k v m = m ++ [(k, v)].
Proof.
  induction m as [|[k0 v0] m IH]; cbn [mapSet mapGet]; [done|].
  case_bool_decide as Hk; [done|]. intros Hm. by rewrite IH.
Qed.

(** Marking a day of an unknown plan changes nothing. Marking a day of a
    stored plan records the mark under this day of this plan and leaves
    alone its other days, its other fields, the other plans and the order
    of the plans. *)
Theorem progress_update_frame planId dayNumber (done : bool) (iso : jsstring) learningPlans :
  let learningPlans' :=
    updateLearningPlanProgress planId dayNumber done iso learningPlans in
  match getLearningPlan planId learningPlans with
  | None => learningPlans' = learningPlans
  | Some plan =>
      (∃ plan',
         getLearningPlan planId learningPlans' = Some plan'
         ∧ lp_progress plan' !! dayNumber = Some {| completed := done; timestamp := iso |}
         ∧ (∀ n : Z, n ≠ dayNumber → lp_progress plan' !! n = lp_progress plan !! n)
         ∧ (lp_id plan', lp_topic plan', lp_duration plan', lp_plan plan', lp_createdAt plan')
           = (lp_id plan, lp_topic plan, lp_duration plan, lp_plan plan, lp_createdAt plan))
      ∧ (∀ other, other ≠ planId →
           getLearningPlan other learningPlans' = getLearningPlan other learningPlans)
      ∧ learningPlans'.*1 = learningPlans.*1
  end.
Proof.
  cbv zeta. unfold updateLearningPlanProgress, getLearningPlan.
  destruct (mapGet planId learningPlans) as [plan|] eqn:Hget; [|done].
  split_and!.
  - eexists. split; [apply mapGet_mapSet|]. cbn [lp_progress lp_id lp_topic lp_duration
                                                  lp_plan lp_createdAt].
    split_and!; [by rewrite lookup_insert_eq | | done].
    intros n Hn. by rewrite lookup_insert_ne.
  - intros other Hother. by apply mapGet_mapSet_ne.
  - apply mapSet_present. by rewrite Hget.
Qed.

Lemma sortWith_newest {A} (key : A → Z) (cmp : A → A → Z) (l : list A) (x : A) :
  (∀ a b, cmp a b = key a - key b) →
  Forall (λ y, key x < key y) l →
  sortWith cmp (l ++ [x]) = x :: sortWith cmp l.
Proof.
  intros Hcmp. induction 1 as [|y l Hy Hl IH]; [done|].
  cbn [app sortWith]. rewrite IH. cbn [insertSorted].
  by rewrite Hcmp, (proj2 (Z.ltb_lt _ _)) by lia.
Qed.

(** A plan created under a fresh id at a clock value later than those of
    the stored plans can be read under its id with no day marked, and
    heads the list of active plans, followed by the first nine of the
    list as it was. *)
Theorem created_plan_heads_active id now (t : jsstring) (duration : Z)
    (planStructure : LearningPlanStructure) learningPlans :
  getLearningPlan id learningPlans = None →
  Forall (λ plan, lp_createdAt plan < now) (learningPlans.*2) →
  let created := {| lp_id := id; lp_topic := t; lp_duration := duration;
                    lp_plan := planStructure; lp_progress := ∅; lp_createdAt := now |} in
  let learningPlans' := createLearningPlan id now t duration planStructure learningPlans in
  getLearningPlan id learningPlans' = Some created
  ∧ getActiveLearningPlans learningPlans'
    = created :: take 9 (getActiveLearningPlans learningPlans).
Proof.
  intros Hfresh Hclock. cbv zeta. unfold createLearningPlan, getLearningPlan.
  split; [apply mapGet_mapSet|].
  unfold getActiveLearningPlans, slice0. rewrite mapSet_absent, fmap_app by done.
  cbn [fmap list_fmap snd].
  rewrite (sortWith_newest (λ plan, - lp_createdAt plan)).
  - cbn [take]. by rewrite take_take.
  - intros; lia.
  - eapply Forall_impl; [exact Hclock|]. intros plan Hplan. cbn in *. lia.
Qed.

(** The list of active plans holds the ten stored plans of the latest
    clock values, or all when there are fewer, in falling order of these
    values. *)
Theorem active_plans_newest_ten learningPlans :
  ∃ rest,
    getActiveLearningPlans learningPlans ++ rest ≡ₚ learningPlans.*2
    ∧ StronglySorted (λ a b, lp_createdAt b ≤ lp_createdAt a)
        (getActiveLearningPlans learningPlans ++ rest)
    ∧ length (getActiveLearningPlans learningPlans) = (10 `min` length learningPlans)%nat.
Proof.
  unfold getActiveLearningPlans, slice0.
  exists (drop 10 (sortWith (λ a b, lp_createdAt b - lp_createdAt a) (learningPlans.*2))).
  rewrite take_drop. split_and!.
  - apply sortWith_perm.
  - eapply StronglySorted_impl;
      [|apply (sortWith_sorted (λ plan, - lp_createdAt plan)); intros; lia].
    intros a b Hab. cbn in Hab. lia.
  - rewrite length_take.
    by rewrite (sortWith_perm (λ a b, lp_createdAt b - lp_createdAt a)), length_fmap.
Qed.

End PlanStoreFacts.

(** An instance: one stored plan created at clock value 10, a second
    created at 20. *)
Lemma created_plan_heads_active_witness :
  let created := {| lp_id := str "plan-2"; lp_topic := str "go"; lp_duration := 1;
                    lp_plan := goPlan; lp_progress := ∅; lp_createdAt := 20 |} in
  let learningPlans' :=
    createLearningPlan (str "plan-2") 20 (str "go") 1 goPlan [(str "plan-1", storedRust)] in
  getLearningPlan (str "plan-2") learningPlans' = Some created
  ∧ getActiveLearningPlans learningPlans'
    = created :: take 9 (getActiveLearningPlans [(str "plan-1", storedRust)]).
Proof.
  apply (created_plan_heads_active (str "plan-2") 20 (str "go") 1 goPlan
           [(str "plan-1", storedRust)]).
  - done.
  - constructor; [cbn; lia | constructor].
Defined.
